(** * consumer_dowdle: keyword counts in a SQLite table and a JSON snapshot

    A shallow embedding of [consumers/consumer_dowdle.py].  The consumer
    reads decoded JSON messages from a Kafka topic; for every message that
    carries a truthy [keyword_mentioned] it increments the keyword's row in
    the SQLite table [keyword_counts] and then the keyword's entry in the
    JSON file [dowdle_live.json].

    The two files on disk are the state; Python exceptions are results that
    stop the computation and keep the state reached so far. *)

From Stdlib Require Import ZArith Lia.
From stdpp Require Import base option list gmap strings pretty.

Local Open Scope Z_scope.

(** ** Values decoded by [json.loads] *)

Module Py.

(** A Python [float] as far as this program can observe one: whether it
    compares equal to zero (truthiness), the text [json.dump] writes when
    it is a dictionary key, and the text SQLite keeps when it is stored in
    a TEXT column ([None] for NaN, which SQLite binds as NULL). *)
Record pyfloat : Type := PyFloat {
  is_zero : bool;
  json_repr : string;
  sqlite_text : option string
}.

#[warnings="-register-all"] Inductive pyval : Type :=
| PNone
| PBool (b : bool)
| PInt (z : Z)
| PFloat (f : pyfloat)
| PStr (s : string)
| PList (items : list pyval)
| PDict (fields : gmap string pyval).

(** [bool(v)]: what [not keyword] tests. *)
Definition truthy (v : pyval) : bool :=
  match v with
  | PNone => false
  | PBool b => b
  | PInt z => negb (z =? 0)
  | PFloat f => negb (is_zero f)
  | PStr s => negb (String.eqb s "")
  | PList items => match items with [] => false | _ :: _ => true end
  | PDict fields => negb (bool_decide (fields = ∅))
  end.

(** A Python [str] is kept as the bytes of its UTF-8 encoding, a lone
    surrogate code point (which [json.loads] delivers for an escape such
    as \ud800) as the three bytes 237, 160-191, 128-191 it would take.
    Byte 237 starts nothing else but a three-byte sequence, so a string
    holds a lone surrogate exactly when 237 is followed by 160-191; such a
    string has no UTF-8 encoding. *)
Fixpoint has_lone_surrogate (s : string) : bool :=
  match s with
  | String a rest =>
      match rest with
      | String b _ =>
          ((Ascii.N_of_ascii a =? 237) && (160 <=? Ascii.N_of_ascii b)
             && (Ascii.N_of_ascii b <=? 191))%N
          || has_lone_surrogate rest
      | EmptyString => false
      end
  | EmptyString => false
  end.

(** [str(z)] and [repr(z)] of an int raise [ValueError] beyond 4300
    decimal digits (the default of [sys.set_int_max_str_digits]). *)
Definition printable_int (z : Z) : bool :=
  bool_decide (Z.abs z < 10 ^ 4300).

(** Whether [f"{v}"] can be built: the text of a list or dict holds the
    [repr] of everything inside it. *)
Fixpoint formattable (v : pyval) : bool :=
  match v with
  | PInt z => printable_int z
  | PList items => forallb formattable items
  | PDict fields => map_fold (λ _ x acc, formattable x && acc) true fields
  | _ => true
  end.

Inductive exn : Type :=
| AttributeError      (* [.get] on a value that is not a dict *)
| TypeError           (* unhashable dictionary key *)
| ValueError          (* int of more than 4300 digits turned into text *)
| OverflowError       (* int outside SQLite's 64-bit INTEGER *)
| UnicodeEncodeError  (* sqlite3: str with a lone surrogate *)
| ProgrammingError    (* sqlite3: parameter of a type it cannot bind *)
| OperationalError    (* sqlite3: no such table *)
| JSONDecodeError.    (* json.load on text that is not JSON *)

End Py.
Export Py.


(** ** The two files under [data/] *)

(** The table [keyword_counts (keyword TEXT PRIMARY KEY, count INTEGER NOT
    NULL)].  A TEXT primary key may be NULL in SQLite, and NULLs never
    conflict with each other: every NULL keyword is a row of its own with
    count 1.  Counts are kept in [Z]; SQLite's INTEGER is 64 bits wide, a
    bound no run reaches before 2^63 messages (see [counts_bounded]). *)
Record table : Type := Table {
  rows : gmap string Z;
  null_rows : nat
}.

(** [dowdle.sqlite]: a database file, with or without the table. *)
Inductive database : Type :=
| Database (keyword_counts : option table).

(** [dowdle_live.json]: either a file that holds no whole document, which
    is the zero-length file left by [open(path, "w")], also once
    [json.dump] has written the beginning of a document into it and
    stopped; or the text of a completed [json.dump], identified with the
    mapping that [json.load] reads back from it. *)
Inductive text_file : Type :=
| Incomplete
| JsonDocument (counts : gmap string Z).

Record disk : Type := Disk {
  sqlite_file : option database;
  json_file : option text_file
}.

(** Records handed to [logger]. *)
Inductive log_record : Type :=
| Info (message : string)
| InfoValue (prefix : string) (value : pyval)
| Warning (message : string).

Record world : Type := World {
  files : disk;
  log : list log_record
}.

(** ** Computations: state passing with exceptions *)

Inductive result (A : Type) : Type :=
| Returned (a : A) (w : world)
| Raised (e : exn) (w : world).
Arguments Returned {A} a w.
Arguments Raised {A} e w.

Definition M (A : Type) : Type := world → result A.

Definition ret {A} (a : A) : M A := λ w, Returned a w.

Definition raise {A} (e : exn) : M A := λ w, Raised e w.

Definition bind {A B} (m : M A) (k : A → M B) : M B :=
  λ w, match m w with
       | Returned a w' => k a w'
       | Raised e w' => Raised e w'
       end.

Declare Scope py_scope.
Delimit Scope py_scope with py.
Notation "x <- m ;; k" := (bind m (λ x, k))
  (at level 100, m at next level, right associativity) : py_scope.
Notation "m ;; k" := (bind m (λ _, k))
  (at level 100, right associativity) : py_scope.
Local Open Scope py_scope.

(** The state a computation ends in, returned or raised. *)
Definition final {A} (r : result A) : world :=
  match r with
  | Returned _ w => w
  | Raised _ w => w
  end.

Definition get_files : M disk := λ w, Returned (files w) w.

Definition put_files (d : disk) : M unit :=
  λ w, Returned tt (World d (log w)).

Definition logger (r : log_record) : M unit :=
  λ w, Returned tt (World (files w) (log w ++ [r])).

(** for-loop over the records an iterator yields. *)
Fixpoint for_each {A} (body : A → M unit) (xs : list A) : M unit :=
  match xs with
  | [] => ret tt
  | x :: xs' => body x ;; for_each body xs'
  end.

(** ** Database setup *)

(** [sqlite3.connect(db_path)], one statement, [commit] and [close].  The
    connection creates the database file when it is missing; a statement
    that raises leaves the database as it was.  Both functions below are
    called with [SQLITE_PATH] only, which is the file modelled here; its
    directory [data/] is taken to exist. *)
Definition sqlite3_run (statement : database → exn + database) : M unit :=
  d <- get_files ;;
  let db := default (Database None) (sqlite_file d) in
  match statement db with
  | inr db' => put_files (Disk (Some db') (json_file d))
  | inl e => put_files (Disk (Some db) (json_file d)) ;; raise e
  end.

(** [CREATE TABLE IF NOT EXISTS keyword_counts (...)] *)
Definition create_table_if_not_exists (db : database) : exn + database :=
  match db with
  | Database (Some t) => inr (Database (Some t))
  | Database None => inr (Database (Some (Table ∅ 0)))
  end.

Definition init_db : M unit :=
  logger (Info "Initializing SQLite DB at {db_path}") ;;
  sqlite3_run create_table_if_not_exists.

(** What the [?] placeholder holds once [sqlite3] has bound the value and
    the column's TEXT affinity has been applied: [None] is NULL.  A str is
    encoded as UTF-8 to be bound, which a lone surrogate does not allow. *)
Definition bind_parameter (v : pyval) : exn + option string :=
  match v with
  | PNone => inr None
  | PBool b => inr (Some (if b then "1" else "0")%string)
  | PInt z =>
      if bool_decide (- 2 ^ 63 ≤ z < 2 ^ 63) then inr (Some (pretty z))
      else inl OverflowError
  | PFloat f => inr (sqlite_text f)
  | PStr s =>
      if has_lone_surrogate s then inl UnicodeEncodeError else inr (Some s)
  | PList _ | PDict _ => inl ProgrammingError
  end.

(** [VALUES (?, 1) ON CONFLICT(keyword) DO UPDATE SET count = count + 1]
    on the rows of the table. *)
Definition upsert (key : option string) (t : table) : table :=
  match key with
  | Some k =>
      Table (<[k := match rows t !! k with
                    | Some count => count + 1
                    | None => 1
                    end]> (rows t)) (null_rows t)
  | None => Table (rows t) (S (null_rows t))
  end.

(** The INSERT statement: prepared against the table first, then bound. *)
Definition insert_keyword (keyword : pyval) (db : database) : exn + database :=
  match db with
  | Database None => inl OperationalError
  | Database (Some t) =>
      match bind_parameter keyword with
      | inr key => inr (Database (Some (upsert key t)))
      | inl e => inl e
      end
  end.

Definition update_keyword_count (keyword : pyval) : M unit :=
  sqlite3_run (insert_keyword keyword).

(** ** JSON file handling *)

(** The dictionary [counts] of [update_json_file].  [json.load] gives it
    str keys only; line 91 then stores one entry under [keyword].  When
    [keyword] is not a str it equals none of the loaded keys, so the entry
    is a new, last one: [scalar_item] keeps it with the text [json.dump]
    writes for its key, [None] when the key is an int too long to be
    written. *)
Record pydict : Type := PyDict {
  str_items : gmap string Z;
  scalar_item : option (option string * Z)
}.

Inductive pykey : Type :=
| KeyStr (s : string)
| KeyScalar (json_text : string)
| KeyHugeInt.

(** Hashing [keyword] for a dictionary access; lists and dicts are
    unhashable. *)
Definition as_key (v : pyval) : exn + pykey :=
  match v with
  | PStr s => inr (KeyStr s)
  | PNone => inr (KeyScalar "null")
  | PBool b => inr (KeyScalar (if b then "true" else "false"))
  | PInt z =>
      if printable_int z then inr (KeyScalar (pretty z)) else inr KeyHugeInt
  | PFloat f => inr (KeyScalar (json_repr f))
  | PList _ | PDict _ => inl TypeError
  end.

(** [counts.get(keyword, 0)] on a freshly loaded dictionary. *)
Definition counts_get (counts : gmap string Z) (key : pykey) (dflt : Z) : Z :=
  match key with
  | KeyStr s => default dflt (counts !! s)
  | KeyScalar _ | KeyHugeInt => dflt
  end.

(** [counts[keyword] = v] on a freshly loaded dictionary. *)
Definition counts_set (counts : gmap string Z) (key : pykey) (v : Z) : pydict :=
  match key with
  | KeyStr s => PyDict (<[s := v]> counts) None
  | KeyScalar text => PyDict counts (Some (Some text, v))
  | KeyHugeInt => PyDict counts (Some (None, v))
  end.

(** [json.load(f)] *)
Definition json_load (f : text_file) : M (gmap string Z) :=
  match f with
  | JsonDocument counts => ret counts
  | Incomplete => raise JSONDecodeError
  end.

(** Lines 85-91: read the file when it exists, increment the entry. *)
Definition load_and_increment (keyword : pyval) : M pydict :=
  d <- get_files ;;
  counts <- match json_file d with
            | Some f => json_load f
            | None => ret ∅
            end ;;
  match as_key keyword with
  | inr key => ret (counts_set counts key (counts_get counts key 0 + 1))
  | inl e => raise e
  end.

(** Line 93, [open(json_path, "w")]: the file is created or cut to
    length zero. *)
Definition open_for_writing : M unit :=
  d <- get_files ;;
  put_files (Disk (sqlite_file d) (Some Incomplete)).

(** The text [json.dump] produces, as [json.load] reads it: an entry whose
    key was coerced to a str comes last and so wins over a loaded entry
    with the same text. *)
Definition dumped (counts : pydict) : gmap string Z :=
  match scalar_item counts with
  | Some (Some text, v) => <[text := v]> (str_items counts)
  | _ => str_items counts
  end.

(** Line 94 and the end of the [with] block.  [json.dump] writes into the
    file that line 93 has opened, piece by piece; at a key it cannot turn
    into text it raises [ValueError], and what it has written up to there
    is only the beginning of a document: the file stays as the open left
    it, without a whole document. *)
Definition json_dump (counts : pydict) : M unit :=
  match scalar_item counts with
  | Some (None, _) => raise ValueError
  | _ =>
      d <- get_files ;;
      put_files (Disk (sqlite_file d) (Some (JsonDocument (dumped counts))))
  end.

Definition update_json_file (keyword : pyval) : M unit :=
  counts <- load_and_increment keyword ;;
  open_for_writing ;;
  json_dump counts.

(** ** Process a single message *)

(** [message.get(field)]: only a dict has the method. *)
Definition get (message : pyval) (field : string) : M pyval :=
  match message with
  | PDict fields => ret (default PNone (fields !! field))
  | _ => raise AttributeError
  end.

(** [logger.info(f"...{value}")]: the text is built before the call. *)
Definition logger_info_f (prefix : string) (value : pyval) : M unit :=
  if formattable value then logger (InfoValue prefix value)
  else raise ValueError.

Definition process_message (message : pyval) : M unit :=
  keyword <- get message "keyword_mentioned" ;;
  if negb (truthy keyword) then
    logger (Warning "Message missing keyword_mentioned field.")
  else
    logger_info_f "Processing message: keyword=" keyword ;;
    update_keyword_count keyword ;;
    update_json_file keyword.

(** ** Kafka consumer *)

(** [consumer] stands for the values of the records the Kafka consumer
    yields, already decoded by [json.loads]; [verify_services],
    [create_kafka_consumer] and [is_topic_available] are taken to have
    returned. *)
Definition consume_messages (consumer : list pyval) : M unit :=
  logger (Info "Step 1. Verify Kafka Services.") ;;
  logger (Info "Step 2. Create Kafka consumer.") ;;
  logger (Info "Step 3. Verify topic exists.") ;;
  logger (Info "Step 4. Process messages in real time.") ;;
  for_each process_message consumer.

(** ** Main *)

(** Lines 144-153 of [main]: everything before the consumption loop. *)
Definition startup_reset : M unit :=
  logger (Info "Starting consumer_dowdle.") ;;
  d <- get_files ;;
  (if bool_decide (is_Some (sqlite_file d)) then
     put_files (Disk None (json_file d)) ;;
     logger (Info "Deleted old database.")
   else ret tt) ;;
  d <- get_files ;;
  (if bool_decide (is_Some (json_file d)) then
     put_files (Disk (sqlite_file d) None) ;;
     logger (Info "Deleted old JSON file.")
   else ret tt) ;;
  init_db.

Definition main (consumer : list pyval) : M unit :=
  startup_reset ;;
  consume_messages consumer.

(** * What the stores hold *)

(** The mapping recorded in the table; no table, no counts. *)
Definition durable_counts (w : world) : gmap string Z :=
  match sqlite_file (files w) with
  | Some (Database (Some t)) => rows t
  | _ => ∅
  end.

(** The mapping a reader of the snapshot gets; like [update_json_file],
    a missing file reads as the empty mapping. *)
Definition snapshot_counts (w : world) : gmap string Z :=
  match json_file (files w) with
  | Some (JsonDocument counts) => counts
  | _ => ∅
  end.

(** The files right after a reset: an empty table, no snapshot. *)
Definition fresh_disk : disk :=
  Disk (Some (Database (Some (Table ∅ 0)))) None.

(** The keyword of a valid event: the message is an object whose
    [keyword_mentioned] is a non-empty string. *)
Definition keyword_mentioned (message : pyval) : option string :=
  match message with
  | PDict fields =>
      match fields !! "keyword_mentioned"%string with
      | Some (PStr s) => if String.eqb s "" then None else Some s
      | _ => None
      end
  | _ => None
  end.

Definition valid_event (message : pyval) : Prop :=
  is_Some (keyword_mentioned message).

(** How many events of the feed mention [k]. *)
Definition occurrences (k : string) (consumer : list pyval) : Z :=
  Z.of_nat (length (filter (λ m, keyword_mentioned m = Some k) consumer)).

(** One more mention of [k]. *)
Definition count_up (k : string) (m : gmap string Z) : gmap string Z :=
  <[k := default 0 (m !! k) + 1]> m.


(** The mapping after the valid events of a feed have been counted, one
    by one, on top of [m]. *)
Definition tally (consumer : list pyval) (m : gmap string Z) : gmap string Z :=
  foldl (λ acc message,
           match keyword_mentioned message with
           | Some k => count_up k acc
           | None => acc
           end) m consumer.

(** Table and snapshot hold the same mapping [m]; before the first write
    the snapshot file does not exist yet. *)
Definition synced (m : gmap string Z) (d : disk) : Prop :=
  sqlite_file d = Some (Database (Some (Table m 0))) ∧
  (json_file d = Some (JsonDocument m) ∨ json_file d = None ∧ m = ∅).

(** A message whose [keyword_mentioned], when truthy, is a string: the
    [keyword: str] that the two update functions are declared for. *)
Definition string_keyword (message : pyval) : Prop :=
  ∀ fields v, message = PDict fields →
    fields !! "keyword_mentioned"%string = Some v →
    truthy v = true → ∃ s, v = PStr s.

(** What a computation leaves behind apart from the log. *)
Definition outcome {A} (r : result A) : (exn + A) * disk :=
  match r with
  | Returned a w => (inr a, files w)
  | Raised e w => (inl e, files w)
  end.

(** A computation that never looks at the log. *)
Definition log_blind {A} (m : M A) : Prop :=
  ∀ w w', files w = files w' → outcome (m w) = outcome (m w').

(** [process_message] stopped between its two store updates, after line
    111 and before line 112. *)
Definition counted (message : pyval) : M unit :=
  keyword <- get message "keyword_mentioned" ;;
  if negb (truthy keyword) then
    logger (Warning "Message missing keyword_mentioned field.")
  else
    logger_info_f "Processing message: keyword=" keyword ;;
    update_keyword_count keyword.

(** [update_json_file] stopped inside its second [with] block, after line
    93 and before line 94. *)
Definition opened (keyword : pyval) : M pydict :=
  counts <- load_and_increment keyword ;;
  open_for_writing ;;
  ret counts.

(** A message that [process_message] drops with the warning: an object
    whose [keyword_mentioned] is missing or falsy. *)
Definition skipped (message : pyval) : bool :=
  match message with
  | PDict fields =>
      negb (truthy (default PNone (fields !! "keyword_mentioned"%string)))
  | _ => false
  end.

(** A snapshot file cut to length zero next to a table with two rows, as
    an interrupted rewrite leaves them. *)
Definition interrupted : world :=
  World (Disk (Some (Database (Some
                (Table {[ "python"%string := 2; "rust"%string := 1 ]} 0))))
              (Some Incomplete)) [].

(** A valid event that the table can take: its keyword has a UTF-8
    encoding. *)
Definition countable_event (message : pyval) : Prop :=
  ∃ k, keyword_mentioned message = Some k ∧ has_lone_surrogate k = false.

(** ** Sample data *)

(** The str that [json.loads] gives for the escape \ud800. *)
Definition lone_surrogate : string :=
  String (Ascii.ascii_of_N 237)
    (String (Ascii.ascii_of_N 160) (String (Ascii.ascii_of_N 128) "")).

Definition event (v : pyval) : pyval :=
  PDict {[ "keyword_mentioned"%string := v ]}.

(** What a previous run that counted python five times left on disk. *)
Definition prior_run : world :=
  World (Disk (Some (Database (Some (Table {[ "python"%string := 5 ]} 0))))
              (Some (JsonDocument {[ "python"%string := 5 ]}))) [].

(** An empty [data/] directory. *)
Definition no_files : world := World (Disk None None) [].

(** * Unfolding the computations *)

Ltac run :=
  unfold main, startup_reset, consume_messages, process_message,
    logger_info_f, update_json_file, json_dump, open_for_writing, load_and_increment,
    json_load, update_keyword_count, init_db, sqlite3_run, get,
    logger, put_files, get_files, bind, raise, ret in *;
  simpl in *.

Lemma bind_returned {A B} (m : M A) (k : A → M B) w a w' :
  m w = Returned a w' → bind m k w = k a w'.
Proof. unfold bind. by intros ->. Qed.

Lemma for_each_app {A} (body : A → M unit) xs ys w :
  for_each body (xs ++ ys) w =
  match for_each body xs w with
  | Returned _ w' => for_each body ys w'
  | Raised e w' => Raised e w'
  end.
Proof.
  revert w. induction xs as [|x xs IH]; intros w; simpl; [done|].
  unfold bind. destruct (body x w) as [[] w'|e w']; [apply IH|done].
Qed.

(** ** Startup *)

Lemma init_db_files w :
  ∃ w', init_db w = Returned tt w' ∧
        files w' = Disk (Some (Database (Some (
                     match sqlite_file (files w) with
                     | Some (Database (Some t)) => t
                     | _ => Table ∅ 0
                     end)))) (json_file (files w)).
Proof.
  run. destruct w as [[[[[t|]]|] j] l]; simpl; eexists; split; done.
Qed.

Lemma startup_reset_fresh w :
  ∃ w', startup_reset w = Returned tt w' ∧ files w' = fresh_disk.
Proof.
  run. destruct w as [[[[[t|]]|] [j|]] l]; simpl;
    repeat case_bool_decide; simpl;
    try (eexists; split; [reflexivity|done]);
    exfalso;
    repeat match goal with
           | H : ¬ is_Some (Some _) |- _ => apply H; eauto
           | H : is_Some None |- _ => by destruct H
           end.
Qed.

(** C5. Whatever a previous run left on disk, the files are deleted and
    the table is created anew: right after the startup, before any
    message is processed, the table exists without rows and there is no
    snapshot file, so both stores hold the empty mapping. *)
Theorem startup_reset_empties_both_stores (w : world) :
  ∃ w', startup_reset w = Returned tt w' ∧
        files w' = fresh_disk ∧
        durable_counts w' = ∅ ∧
        snapshot_counts w' = ∅.
Proof.
  destruct (startup_reset_fresh w) as (w' & Hrun & Hfiles).
  exists w'. unfold durable_counts, snapshot_counts.
  by rewrite Hfiles.
Qed.

Example startup_after_python_5 :
  durable_counts prior_run !! "python"%string = Some 5 ∧
  durable_counts (final (startup_reset prior_run)) = ∅ ∧
  snapshot_counts (final (startup_reset prior_run)) = ∅.
Proof. by vm_compute. Qed.

(** C8. The startup reset run twice in a row returns both times and both
    times leaves the same files, an empty table and no snapshot: no key
    from before either reset survives. *)
Theorem startup_reset_idempotent (w : world) :
  ∃ w1 w2, startup_reset w = Returned tt w1 ∧
           startup_reset w1 = Returned tt w2 ∧
           files w1 = fresh_disk ∧ files w2 = fresh_disk ∧
           durable_counts w1 = ∅ ∧ snapshot_counts w1 = ∅ ∧
           durable_counts w2 = ∅ ∧ snapshot_counts w2 = ∅.
Proof.
  destruct (startup_reset_fresh w) as (w1 & Hrun1 & Hfiles1).
  destruct (startup_reset_fresh w1) as (w2 & Hrun2 & Hfiles2).
  exists w1, w2. unfold durable_counts, snapshot_counts.
  by rewrite Hfiles1, Hfiles2.
Qed.

(** ** The log is write-only *)

Create HintDb blind discriminated.

Lemma log_blind_ret {A} (a : A) : log_blind (ret a).
Proof. intros w w' H. simpl. by rewrite H. Qed.

Lemma log_blind_raise {A} e : log_blind (@raise A e).
Proof. intros w w' H. simpl. by rewrite H. Qed.

Lemma log_blind_logger r : log_blind (logger r).
Proof. intros w w' H. simpl. by rewrite H. Qed.

Lemma log_blind_put_files d : log_blind (put_files d).
Proof. by intros w w' H. Qed.

Lemma log_blind_get_files : log_blind get_files.
Proof. intros w w' H. simpl. by rewrite H. Qed.

Lemma log_blind_bind {A B} (m : M A) (k : A → M B) :
  log_blind m → (∀ a, log_blind (k a)) → log_blind (bind m k).
Proof.
  intros Hm Hk w w' H. unfold bind. specialize (Hm w w' H).
  destruct (m w) as [a w1|e w1], (m w') as [a' w1'|e' w1'];
    simpl in Hm; simplify_eq; [by apply Hk|].
  simpl. congruence.
Qed.

#[local] Hint Resolve log_blind_ret log_blind_raise log_blind_logger
  log_blind_put_files log_blind_get_files log_blind_bind : blind.

Lemma log_blind_for_each {A} (body : A → M unit) xs :
  (∀ x, log_blind (body x)) → log_blind (for_each body xs).
Proof. intros Hbody. induction xs; simpl; auto with blind. Qed.

Lemma log_blind_sqlite3_run statement : log_blind (sqlite3_run statement).
Proof.
  unfold sqlite3_run. apply log_blind_bind; [auto with blind|].
  intros d. destruct (statement _); auto with blind.
Qed.

Lemma log_blind_json_dump counts : log_blind (json_dump counts).
Proof.
  unfold json_dump. destruct (scalar_item counts) as [[[text|] v]|];
    auto with blind.
Qed.

Lemma log_blind_update_json_file keyword : log_blind (update_json_file keyword).
Proof.
  unfold update_json_file, load_and_increment, open_for_writing.
  apply log_blind_bind.
  - repeat (apply log_blind_bind; [|intros ?]); auto with blind.
    + destruct (json_file _) as [[]|]; simpl; auto with blind.
    + destruct (as_key _); auto with blind.
  - intros counts. apply log_blind_bind; [auto with blind|intros _].
    apply log_blind_json_dump.
Qed.

Lemma log_blind_process_message message : log_blind (process_message message).
Proof.
  unfold process_message. apply log_blind_bind.
  - destruct message; simpl; auto with blind.
  - intros keyword. destruct (truthy keyword); simpl; [|auto with blind].
    apply log_blind_bind; [|intros _].
    { unfold logger_info_f. destruct (formattable keyword); auto with blind. }
    apply log_blind_bind; [apply log_blind_sqlite3_run|intros _].
    apply log_blind_update_json_file.
Qed.

(** ** Messages without a keyword *)

Lemma process_message_falsy fields w :
  truthy (default PNone (fields !! "keyword_mentioned"%string)) = false →
  process_message (PDict fields) w =
  Returned tt (World (files w)
    (log w ++ [Warning "Message missing keyword_mentioned field."])).
Proof. intros H. run. by rewrite H. Qed.

(** C10. When the decoded message has a [keyword_mentioned] that Python
    takes for false (null, false, 0, 0.0, the empty string, an empty list
    or object), [process_message] returns normally: the only effect is the
    warning in the log, neither file is touched, so neither store update
    ran. *)
Theorem process_message_falsy_keyword (fields : gmap string pyval) (v : pyval) (w : world) :
  fields !! "keyword_mentioned"%string = Some v →
  truthy v = false →
  process_message (PDict fields) w =
    Returned tt (World (files w)
      (log w ++ [Warning "Message missing keyword_mentioned field."])) ∧
  durable_counts (final (process_message (PDict fields) w)) = durable_counts w ∧
  snapshot_counts (final (process_message (PDict fields) w)) = snapshot_counts w.
Proof.
  intros Hv Hfalsy.
  rewrite process_message_falsy by (by rewrite Hv). done.
Qed.

(** The values [json.loads] can produce that Python takes for false. *)
Lemma falsy_values v :
  truthy v = false ↔
  v = PNone ∨ v = PBool false ∨ v = PInt 0 ∨
  (∃ f, v = PFloat f ∧ is_zero f = true) ∨
  v = PStr "" ∨ v = PList [] ∨ v = PDict ∅.
Proof.
  split.
  - destruct v as [|b|z|f|s|items|fields]; simpl; intros H.
    + auto.
    + subst. auto.
    + apply negb_false_iff, Z.eqb_eq in H. subst. auto.
    + apply negb_false_iff in H. eauto 10.
    + apply negb_false_iff, String.eqb_eq in H. subst. auto 10.
    + destruct items; [auto 10|done].
    + apply negb_false_iff, bool_decide_eq_true in H. subst. auto 10.
  - intros [->|[->|[->|[(f & -> & Hf)|[->|[->| ->]]]]]]; simpl; try done.
    by rewrite Hf.
Qed.

Lemma process_message_falsy_keyword_witness :
  process_message (event (PInt 0)) prior_run =
    Returned tt (World (files prior_run)
      [Warning "Message missing keyword_mentioned field."]) ∧
  durable_counts (final (process_message (event (PInt 0)) prior_run))
    = durable_counts prior_run ∧
  snapshot_counts (final (process_message (event (PInt 0)) prior_run))
    = snapshot_counts prior_run.
Proof.
  apply (process_message_falsy_keyword
           {[ "keyword_mentioned"%string := PInt 0 ]} (PInt 0) prior_run).
  - reflexivity.
  - reflexivity.
Defined.

(** ** The run as a loop over a fresh disk *)

Lemma main_for_each w :
  ∃ w1, files w1 = fresh_disk ∧
        ∀ consumer, main consumer w = for_each process_message consumer w1.
Proof.
  destruct (startup_reset_fresh w) as (w' & Hrun & Hfiles).
  eexists (World (files w') (_ ++ [_])). split; [done|].
  intros consumer. unfold main, consume_messages.
  rewrite (bind_returned _ _ _ _ _ Hrun).
  unfold bind at 1 2 3 4. simpl. reflexivity.
Qed.

Lemma for_each_skip {A} (body : A → M unit) pre x post w :
  (∀ y, log_blind (body y)) →
  (∀ w0, ∃ w', body x w0 = Returned tt w' ∧ files w' = files w0) →
  outcome (for_each body (pre ++ x :: post) w) =
  outcome (for_each body (pre ++ post) w).
Proof.
  intros Hblind Hskip. rewrite !for_each_app.
  destruct (for_each body pre w) as [[] w1|e w1]; [|done].
  simpl. destruct (Hskip w1) as (w2 & Hx & Hfiles).
  rewrite (bind_returned _ _ _ _ _ Hx).
  by apply log_blind_for_each.
Qed.

(** ** Valid events keep the two stores in step *)

Lemma upsert_rows k t :
  rows (upsert (Some k) t) = count_up k (rows t).
Proof. unfold upsert, count_up. simpl. by destruct (rows t !! k). Qed.

(** The count of a keyword is 1 on first sight and one more on every
    later sight; every other keyword keeps its count. *)
Lemma count_up_lookup k k' m :
  count_up k m !! k' =
  if decide (k = k') then Some (default 0 (m !! k) + 1) else m !! k'.
Proof. unfold count_up. by rewrite lookup_insert. Qed.

Lemma keyword_mentioned_Some message k :
  keyword_mentioned message = Some k →
  ∃ fields, message = PDict fields ∧
            fields !! "keyword_mentioned"%string = Some (PStr k) ∧
            truthy (PStr k) = true.
Proof.
  destruct message as [| | | | | |fields]; simpl; try done.
  destruct (fields !! _) as [[| | | |s| |]|] eqn:Hf; try done.
  destruct (String.eqb s "") eqn:Hs; intros; simplify_eq.
  exists fields. simpl. by rewrite Hs.
Qed.

Lemma process_message_valid message k m w :
  keyword_mentioned message = Some k →
  has_lone_surrogate k = false →
  synced m (files w) →
  ∃ w', process_message message w = Returned tt w' ∧
        synced (count_up k m) (files w').
Proof.
  intros (fields & -> & Hf & Ht)%keyword_mentioned_Some Hutf8 [Hdb Hjson].
  destruct w as [[db json] l]. simpl in *. subst db.
  run. rewrite Hf. simpl in *. rewrite Ht. simpl. rewrite Hutf8. simpl.
  destruct Hjson as [-> | [-> ->]]; simpl;
    (eexists; split; [reflexivity|]); split; simpl.
  - unfold count_up. by destruct (m !! k).
  - by left.
  - done.
  - by left.
Qed.

(** A keyword with a lone surrogate is refused by [sqlite3] before either
    store has changed. *)
Lemma process_message_surrogate message k t w :
  keyword_mentioned message = Some k →
  has_lone_surrogate k = true →
  sqlite_file (files w) = Some (Database (Some t)) →
  ∃ w', process_message message w = Raised UnicodeEncodeError w' ∧
        files w' = files w.
Proof.
  intros (fields & -> & Hf & Ht)%keyword_mentioned_Some Hutf8 Hdb.
  destruct w as [[db json] l]. simpl in *. subst db.
  run. rewrite Hf. simpl in *. rewrite Ht. simpl. rewrite Hutf8. simpl.
  by eexists.
Qed.

Lemma for_each_valid consumer m w :
  Forall countable_event consumer →
  synced m (files w) →
  ∃ w', for_each process_message consumer w = Returned tt w' ∧
        synced (tally consumer m) (files w').
Proof.
  intros Hvalid. revert m w.
  induction Hvalid as [|message consumer (k & Hk & Hutf8) _ IH];
    intros m w Hsync.
  - by exists w.
  - destruct (process_message_valid _ _ _ _ Hk Hutf8 Hsync)
      as (w1 & Hrun & Hsync1).
    destruct (IH _ _ Hsync1) as (w2 & Hrest & Hsync2).
    exists w2. simpl. rewrite (bind_returned _ _ _ _ _ Hrun).
    by rewrite Hk.
Qed.

(** Valid events, encodable or not: the stores stay in step to the end,
    and a run that returns has counted every event. *)
Lemma for_each_valid_final consumer m w :
  Forall valid_event consumer →
  synced m (files w) →
  match for_each process_message consumer w with
  | Returned _ w' => synced (tally consumer m) (files w')
  | Raised _ w' => ∃ m', synced m' (files w')
  end.
Proof.
  intros Hvalid. revert m w.
  induction Hvalid as [|message consumer [k Hk] _ IH]; intros m w Hsync.
  - done.
  - cbn [for_each]. unfold bind, tally. simpl. rewrite Hk.
    destruct (has_lone_surrogate k) eqn:Hutf8.
    + destruct Hsync as [Hdb Hjson].
      destruct (process_message_surrogate _ _ _ _ Hk Hutf8 Hdb)
        as (w1 & -> & Hsame).
      exists m. by rewrite Hsame.
    + destruct (process_message_valid _ _ _ _ Hk Hutf8 Hsync)
        as (w1 & -> & Hsync1).
      apply (IH _ _ Hsync1).
Qed.

Lemma tally_lookup consumer m k :
  tally consumer m !! k =
  if decide (occurrences k consumer = 0) then m !! k
  else Some (default 0 (m !! k) + occurrences k consumer).
Proof.
  unfold occurrences. revert m.
  induction consumer as [|message consumer IH]; intros m; simpl; [done|].
  unfold tally in *. rewrite IH. clear IH. rewrite filter_cons.
  destruct (keyword_mentioned message) as [k'|] eqn:Hk.
  - rewrite count_up_lookup. destruct (decide (k' = k)) as [->|Hne].
    + rewrite (decide_True (P := Some k = Some k)) by done. simpl length.
      repeat case_decide; simpl; try lia; f_equal; lia.
    + by rewrite (decide_False (P := Some k' = Some k)) by congruence.
  - by rewrite (decide_False (P := None = Some k)) by done.
Qed.

Lemma fresh_disk_synced w : files w = fresh_disk → synced ∅ (files w).
Proof. intros ->. split; simpl; auto. Qed.

Lemma main_valid consumer w :
  Forall countable_event consumer →
  ∃ w', main consumer w = Returned tt w' ∧
        synced (tally consumer ∅) (files w').
Proof.
  intros Hvalid. destruct (main_for_each w) as (w1 & Hfresh & ->).
  apply for_each_valid; [done|]. by apply fresh_disk_synced.
Qed.

Lemma synced_counts m w :
  synced m (files w) → durable_counts w = m ∧ snapshot_counts w = m.
Proof.
  unfold durable_counts, snapshot_counts.
  intros [-> [-> | [-> ->]]]; done.
Qed.

(** C1, as the code has it.  After a feed of valid events whose keywords
    have a UTF-8 encoding (no lone surrogate) has been processed from
    startup, the table holds, for every keyword that occurs, exactly its
    number of occurrences, and no row for any other keyword.  Said step by
    step: one more such event for [k] sets the count of [k] to 1 when [k]
    had no row and to one more than before when it had. *)
Theorem durable_count_is_occurrences (w : world) (consumer : list pyval) :
  Forall countable_event consumer →
  ∃ w', main consumer w = Returned tt w' ∧
        (∀ k, durable_counts w' !! k =
              if decide (occurrences k consumer = 0) then None
              else Some (occurrences k consumer)) ∧
        (∀ message k, keyword_mentioned message = Some k →
           has_lone_surrogate k = false →
           ∃ w'', main (consumer ++ [message]) w = Returned tt w'' ∧
                  durable_counts w'' !! k =
                    Some (default 0 (durable_counts w' !! k) + 1)).
Proof.
  intros Hvalid. destruct (main_valid consumer w Hvalid) as (w' & Hrun & Hsync).
  exists w'. split; [done|].
  destruct (synced_counts _ _ Hsync) as [-> _]. split.
  - intros k. rewrite tally_lookup, lookup_empty. simpl.
    case_decide; [done|]. f_equal.
  - intros message k Hk Hutf8.
    destruct (main_valid (consumer ++ [message]) w) as (w'' & Hrun' & Hsync').
    { apply Forall_app. split; [done|]. apply Forall_singleton. by exists k. }
    exists w''. split; [done|].
    destruct (synced_counts _ _ Hsync') as [-> _].
    unfold tally. rewrite foldl_app. simpl. rewrite Hk.
    by rewrite count_up_lookup, decide_True.
Qed.

(** C2. Whenever a feed of valid events has been processed from startup,
    the document in the snapshot file and the rows of the table are the
    same mapping, although the snapshot is brought up to date by its own
    read-modify-write of the file.  This holds in the state the run ends
    in, also when [sqlite3] refuses a keyword and the run ends there; and
    when the run returns, after the last event, that mapping is the count
    of every event of the feed. *)
Theorem snapshot_equals_durable (w : world) (consumer : list pyval) :
  Forall valid_event consumer →
  snapshot_counts (final (main consumer w))
    = durable_counts (final (main consumer w)) ∧
  (∀ k, snapshot_counts (final (main consumer w)) !! k
          = durable_counts (final (main consumer w)) !! k) ∧
  (∀ w', main consumer w = Returned tt w' →
     snapshot_counts w' = tally consumer ∅ ∧
     durable_counts w' = tally consumer ∅).
Proof.
  intros Hvalid. destruct (main_for_each w) as (w1 & Hfresh & ->).
  pose proof (for_each_valid_final consumer ∅ w1 Hvalid
                (fresh_disk_synced _ Hfresh)) as Hend.
  destruct (for_each process_message consumer w1) as [[] w'|e w']; simpl.
  - destruct (synced_counts _ _ Hend) as [Hd Hs].
    rewrite Hd, Hs. split; [done|]. split; [done|].
    intros w'' [= <-]. by rewrite Hd, Hs.
  - destruct Hend as (m' & Hsync).
    destruct (synced_counts _ _ Hsync) as [-> ->]. done.
Qed.

Lemma durable_count_is_occurrences_witness :
  ∃ w', main [event (PStr "python"); event (PStr "python"); event (PStr "rust")]
             prior_run = Returned tt w' ∧
        (∀ k, durable_counts w' !! k =
              if decide (occurrences k [event (PStr "python");
                                        event (PStr "python");
                                        event (PStr "rust")] = 0)
              then None
              else Some (occurrences k [event (PStr "python");
                                        event (PStr "python");
                                        event (PStr "rust")])) ∧
        (∀ message k, keyword_mentioned message = Some k →
           has_lone_surrogate k = false →
           ∃ w'', main ([event (PStr "python"); event (PStr "python");
                         event (PStr "rust")] ++ [message]) prior_run
                    = Returned tt w'' ∧
                  durable_counts w'' !! k =
                    Some (default 0 (durable_counts w' !! k) + 1)).
Proof.
  refine (durable_count_is_occurrences prior_run
    [event (PStr "python"); event (PStr "python"); event (PStr "rust")] _).
  repeat apply Forall_cons_2; try apply Forall_nil_2;
    eexists; split; vm_compute; reflexivity.
Defined.

(** C1 fails on the code: the escape \ud800 gives a keyword that is a
    non-empty string, hence a valid event, but [sqlite3] cannot encode it
    and raises; neither it nor the event behind it is counted. *)
Lemma surrogate_keyword_not_counted :
  keyword_mentioned (event (PStr lone_surrogate)) = Some lone_surrogate ∧
  outcome (main [event (PStr lone_surrogate); event (PStr "python")] no_files)
    = (inl UnicodeEncodeError, fresh_disk).
Proof. by vm_compute. Qed.

Lemma snapshot_equals_durable_witness :
  snapshot_counts (final (main [event (PStr "python"); event (PStr "python");
                               event (PStr "rust")] prior_run))
    = durable_counts (final (main [event (PStr "python"); event (PStr "python");
                                  event (PStr "rust")] prior_run)) ∧
  (∀ k, snapshot_counts (final (main [event (PStr "python");
                                      event (PStr "python");
                                      event (PStr "rust")] prior_run)) !! k
          = durable_counts (final (main [event (PStr "python");
                                         event (PStr "python");
                                         event (PStr "rust")] prior_run)) !! k) ∧
  (∀ w', main [event (PStr "python"); event (PStr "python");
               event (PStr "rust")] prior_run = Returned tt w' →
     snapshot_counts w' = tally [event (PStr "python"); event (PStr "python");
                                 event (PStr "rust")] ∅ ∧
     durable_counts w' = tally [event (PStr "python"); event (PStr "python");
                                event (PStr "rust")] ∅).
Proof.
  refine (snapshot_equals_durable prior_run
    [event (PStr "python"); event (PStr "python"); event (PStr "rust")] _).
  repeat apply Forall_cons_2; try apply Forall_nil_2;
    vm_compute; eexists; reflexivity.
Defined.

Example python_python_rust :
  outcome (main [event (PStr "python"); event (PStr "python");
                 event (PStr "rust")] prior_run) =
  (inr tt,
   Disk (Some (Database (Some
           (Table {[ "python"%string := 2; "rust"%string := 1 ]} 0))))
        (Some (JsonDocument {[ "python"%string := 2; "rust"%string := 1 ]}))).
Proof. by vm_compute. Qed.

(** ** The loop, message by message *)

Lemma consume_messages_loop consumer w :
  consume_messages consumer w =
  for_each process_message consumer (final (consume_messages [] w)).
Proof. reflexivity. Qed.

Lemma for_each_cons_app {A} (body : A → M unit) pre x post w :
  for_each body (pre ++ x :: post) w =
  match for_each body pre w with
  | Raised e w1 => Raised e w1
  | Returned _ w1 =>
      match body x w1 with
      | Raised e w2 => Raised e w2
      | Returned _ w2 => for_each body post w2
      end
  end.
Proof.
  rewrite for_each_app. destruct (for_each body pre w) as [[] w1|e w1]; [|done].
  simpl. unfold bind. by destruct (body x w1).
Qed.

(** ** One store operation at a time *)

Lemma update_keyword_count_durable keyword w :
  durable_counts (final (update_keyword_count keyword w)) = durable_counts w ∨
  ∃ k, bind_parameter keyword = inr (Some k) ∧
       durable_counts (final (update_keyword_count keyword w))
         = count_up k (durable_counts w).
Proof.
  unfold durable_counts. run.
  destruct w as [[[[[t|]]|] j] l]; simpl; auto.
  destruct (bind_parameter keyword) as [e|[k|]]; simpl; auto.
  right. exists k. split; [done|]. apply upsert_rows.
Qed.

Lemma update_keyword_count_json keyword w :
  json_file (files (final (update_keyword_count keyword w))) = json_file (files w).
Proof.
  run. destruct (insert_keyword _ _); done.
Qed.

Lemma update_json_file_sqlite keyword w :
  sqlite_file (files (final (update_json_file keyword w))) = sqlite_file (files w).
Proof.
  run. destruct w as [[db [[|counts]|]] l]; simpl; try done;
    destruct (as_key keyword) as [e|[s|text|]]; done.
Qed.







(** The results of [process_message], by the shape of the message. *)
Lemma process_message_cases message w :
  files (final (process_message message w)) = files w ∨
  ∃ fields keyword,
    message = PDict fields ∧
    fields !! "keyword_mentioned"%string = Some keyword ∧
    truthy keyword = true ∧
    formattable keyword = true ∧
    process_message message w =
      (update_keyword_count keyword ;; update_json_file keyword)
        (World (files w)
           (log w ++ [InfoValue "Processing message: keyword=" keyword])).
Proof.
  destruct message as [| | | | | |fields]; try (by left).
  destruct (fields !! "keyword_mentioned"%string) as [keyword|] eqn:Hf.
  - destruct (truthy keyword) eqn:Ht.
    + destruct (formattable keyword) eqn:Hfmt.
      * right. exists fields, keyword. repeat split; try done.
        unfold process_message, logger_info_f, get. simpl.
        unfold bind at 1, ret. rewrite Hf. simpl. rewrite Ht. simpl.
        unfold bind at 1. rewrite Hfmt. reflexivity.
      * left. unfold process_message, logger_info_f, get. simpl.
        unfold bind at 1, ret. rewrite Hf. simpl. rewrite Ht. simpl.
        unfold bind at 1. rewrite Hfmt. reflexivity.
    + left. rewrite process_message_falsy; [done|by rewrite Hf].
  - left. rewrite process_message_falsy; [done|by rewrite Hf].
Qed.

Lemma final_bind {A B} (m : M A) (k : A → M B) w :
  final (bind m k w) =
  match m w with
  | Returned a w' => final (k a w')
  | Raised _ w' => w'
  end.
Proof. unfold bind. by destruct (m w). Qed.

Lemma durable_counts_files w w' :
  files w = files w' → durable_counts w = durable_counts w'.
Proof. unfold durable_counts. by intros ->. Qed.


Lemma durable_counts_sqlite w w' :
  sqlite_file (files w) = sqlite_file (files w') →
  durable_counts w = durable_counts w'.
Proof. unfold durable_counts. by intros ->. Qed.

Lemma snapshot_counts_json w w' :
  json_file (files w) = json_file (files w') →
  snapshot_counts w = snapshot_counts w'.
Proof. unfold snapshot_counts. by intros ->. Qed.



(** ** Counts along a run *)






(** ** Between the two store updates *)

Lemma process_message_valid_steps message k m w :
  keyword_mentioned message = Some k →
  has_lone_surrogate k = false →
  synced m (files w) →
  ∃ w2 w3,
    counted message w = Returned tt w2 ∧
    update_json_file (PStr k) w2 = Returned tt w3 ∧
    process_message message w = Returned tt w3 ∧
    files w2 = Disk (Some (Database (Some (Table (count_up k m) 0))))
                    (json_file (files w)) ∧
    synced (count_up k m) (files w3).
Proof.
  intros (fields & -> & Hf & Ht)%keyword_mentioned_Some Hutf8 [Hdb Hjson].
  destruct w as [[db json] l]. simpl in *. subst db.
  unfold counted. run. rewrite Hf. simpl in *. rewrite Ht. simpl.
  rewrite Hutf8. simpl.
  assert (Hup : <[k:=match m !! k with
                     | Some count => count + 1
                     | None => 1
                     end]> m = count_up k m).
  { unfold count_up. by destruct (m !! k). }
  rewrite Hup.
  destruct Hjson as [-> | [-> ->]]; simpl;
    do 2 eexists; (split; [reflexivity|]); simpl;
    (split; [reflexivity|]); (split; [reflexivity|]);
    (split; [reflexivity|]); split; simpl; auto.
Qed.

(** A valid event is processed as [counted] followed by the snapshot
    update, from every state. *)
Lemma process_message_counted_first message k w :
  keyword_mentioned message = Some k →
  process_message message w =
    (counted message ;; update_json_file (PStr k)) w.
Proof.
  intros (fields & -> & Hf & Ht)%keyword_mentioned_Some.
  destruct w as [[db json] l].
  unfold counted. run. rewrite Hf. simpl in *. rewrite Ht. simpl.
  by destruct (insert_keyword (PStr k) (default (Database None) db)).
Qed.

(** With the snapshot unreadable a valid event gets as far as the table:
    the row is incremented, then [json.load] raises. *)
Lemma process_message_table_first message k t w :
  keyword_mentioned message = Some k →
  has_lone_surrogate k = false →
  sqlite_file (files w) = Some (Database (Some t)) →
  json_file (files w) = Some Incomplete →
  ∃ w', process_message message w = Raised JSONDecodeError w' ∧
        durable_counts w' = count_up k (rows t) ∧
        json_file (files w') = Some Incomplete.
Proof.
  intros (fields & -> & Hf & Ht)%keyword_mentioned_Some Hutf8.
  destruct w as [[db json] l]. simpl. intros -> ->.
  unfold durable_counts. run. rewrite Hf. simpl in *. rewrite Ht. simpl.
  rewrite Hutf8. simpl.
  eexists. split; [reflexivity|]. simpl. split; [|done].
  unfold count_up. by destruct (rows t !! k).
Qed.

Lemma string_keyword_step message m w :
  string_keyword message →
  synced m (files w) →
  ∃ m', synced m' (files (final (process_message message w))).
Proof.
  intros Hstr Hsync. destruct (process_message_cases message w)
    as [Hsame | (fields & keyword & -> & Hf & Ht & _ & _)].
  - exists m. by rewrite Hsame.
  - destruct (Hstr fields keyword eq_refl Hf Ht) as [s ->].
    assert (Hk : keyword_mentioned (PDict fields) = Some s).
    { simpl. rewrite Hf. simpl in Ht. by destruct (String.eqb s ""). }
    destruct (has_lone_surrogate s) eqn:Hutf8.
    + destruct (process_message_surrogate _ _ _ _ Hk Hutf8 (proj1 Hsync))
        as (w' & -> & Hsame).
      exists m. simpl. by rewrite Hsame.
    + destruct (process_message_valid _ _ _ _ Hk Hutf8 Hsync)
        as (w' & -> & Hsync').
      by exists (count_up s m).
Qed.

Lemma for_each_string_keyword feed m w :
  Forall string_keyword feed →
  synced m (files w) →
  ∃ m', synced m' (files (final (for_each process_message feed w))).
Proof.
  intros Hall. revert m w.
  induction Hall as [|message feed Hstr _ IH]; intros m w Hsync; simpl.
  - by exists m.
  - rewrite final_bind.
    destruct (string_keyword_step message m w Hstr Hsync) as (m1 & Hsync1).
    destruct (process_message message w) as [[] w1|e w1]; simpl in Hsync1.
    + by apply (IH m1).
    + by exists m1.
Qed.

(** C7, as the code has it.  In a run whose messages so far carried string
    keywords (or none), a valid event with an encodable keyword is applied
    to the table first and to the snapshot second.  Before the event the
    stores agree; between the two updates the snapshot is as before and
    the table is exactly one increment of the event's keyword ahead of it;
    after the second update they agree again.  The snapshot is never
    ahead.  That the table comes first holds from every state: processing
    the event is [counted] followed by the snapshot update, and where the
    snapshot cannot be read the row has been incremented when the
    exception comes. *)
Theorem durable_leads_by_one_increment (w w1 : world) (feed : list pyval)
    (message : pyval) (k : string) :
  Forall string_keyword feed →
  main feed w = Returned tt w1 →
  keyword_mentioned message = Some k →
  has_lone_surrogate k = false →
  (∃ w2 w3,
     counted message w1 = Returned tt w2 ∧
     update_json_file (PStr k) w2 = Returned tt w3 ∧
     process_message message w1 = Returned tt w3 ∧
     main (feed ++ [message]) w = Returned tt w3 ∧
     snapshot_counts w1 = durable_counts w1 ∧
     snapshot_counts w2 = snapshot_counts w1 ∧
     durable_counts w2 = count_up k (snapshot_counts w2) ∧
     durable_counts w3 = durable_counts w2 ∧
     snapshot_counts w3 = durable_counts w3) ∧
  (∀ w0, process_message message w0 =
           (counted message ;; update_json_file (PStr k)) w0) ∧
  (∀ w0 t, sqlite_file (files w0) = Some (Database (Some t)) →
           json_file (files w0) = Some Incomplete →
           ∃ w', process_message message w0 = Raised JSONDecodeError w' ∧
                 durable_counts w' = count_up k (rows t) ∧
                 snapshot_counts w' = snapshot_counts w0).
Proof.
  intros Hall Hrun Hk Hutf8. split; [|split].
  - destruct (main_for_each w) as (w0 & Hfresh & Hmain).
    assert (Hsync : ∃ m, synced m (files w1)).
    { destruct (for_each_string_keyword feed ∅ w0 Hall) as (m & Hm).
      - by apply fresh_disk_synced.
      - exists m. by rewrite <- Hmain, Hrun in Hm. }
    destruct Hsync as (m & Hsync).
    destruct (process_message_valid_steps _ _ _ _ Hk Hutf8 Hsync)
      as (w2 & w3 & Hcounted & Hjson & Hprocess & Hfiles2 & Hsync3).
    exists w2, w3.
    destruct (synced_counts _ _ Hsync) as [Hd1 Hs1].
    destruct (synced_counts _ _ Hsync3) as [Hd3 Hs3].
    assert (Hd2 : durable_counts w2 = count_up k m).
    { unfold durable_counts. by rewrite Hfiles2. }
    assert (Hs2 : snapshot_counts w2 = snapshot_counts w1).
    { apply snapshot_counts_json. by rewrite Hfiles2. }
    repeat split; try done; try congruence.
    rewrite Hmain, for_each_app. rewrite Hmain in Hrun. rewrite Hrun. simpl.
    by rewrite (bind_returned _ _ _ _ _ Hprocess).
  - intros w0. by apply process_message_counted_first.
  - intros w0 t Hdb Hjson.
    destruct (process_message_table_first _ _ _ _ Hk Hutf8 Hdb Hjson)
      as (w' & Hraise & Hd & Hj).
    exists w'. split; [done|]. split; [done|].
    apply snapshot_counts_json. by rewrite Hj, Hjson.
Qed.

Lemma durable_leads_by_one_increment_witness :
  (∃ w2 w3,
     counted (event (PStr "python"))
       (final (main [event (PStr "python")] prior_run)) = Returned tt w2 ∧
     update_json_file (PStr "python") w2 = Returned tt w3 ∧
     process_message (event (PStr "python"))
       (final (main [event (PStr "python")] prior_run)) = Returned tt w3 ∧
     main ([event (PStr "python")] ++ [event (PStr "python")]) prior_run
       = Returned tt w3 ∧
     snapshot_counts (final (main [event (PStr "python")] prior_run))
       = durable_counts (final (main [event (PStr "python")] prior_run)) ∧
     snapshot_counts w2
       = snapshot_counts (final (main [event (PStr "python")] prior_run)) ∧
     durable_counts w2 = count_up "python" (snapshot_counts w2) ∧
     durable_counts w3 = durable_counts w2 ∧
     snapshot_counts w3 = durable_counts w3) ∧
  (∀ w0, process_message (event (PStr "python")) w0 =
           (counted (event (PStr "python")) ;;
            update_json_file (PStr "python")) w0) ∧
  (∀ w0 t, sqlite_file (files w0) = Some (Database (Some t)) →
           json_file (files w0) = Some Incomplete →
           ∃ w', process_message (event (PStr "python")) w0
                   = Raised JSONDecodeError w' ∧
                 durable_counts w' = count_up "python" (rows t) ∧
                 snapshot_counts w' = snapshot_counts w0).
Proof.
  refine (durable_leads_by_one_increment prior_run
            (final (main [event (PStr "python")] prior_run))
            [event (PStr "python")] (event (PStr "python")) "python" _ _ _ _).
  - repeat apply Forall_cons_2; try apply Forall_nil_2;
      intros fields v Hmessage Hfield _; vm_compute in Hmessage;
      injection Hmessage as <-; vm_compute in Hfield;
      injection Hfield as <-; eexists; reflexivity.
  - vm_compute. reflexivity.
  - vm_compute. reflexivity.
  - reflexivity.
Defined.

(** C7 fails on the code.  While the snapshot is rewritten for the third
    "python" the table holds 3 and the file holds no document.  With a
    keyword that is not a string the stores can part for good: after the
    message with keyword [true] the snapshot has "true": 1 and the table
    has a row for "1" instead, so the snapshot is ahead on "true"; after
    "5", "5" and the number 5 the table holds 3 for "5" and the snapshot
    1, so between the two updates of the next event the table is three
    increments ahead. *)
Lemma snapshot_ahead_of_durable :
  files (final (opened (PStr "python")
     (final (counted (event (PStr "python"))
        (final (main [event (PStr "python"); event (PStr "python")]
                     no_files)))))) =
    Disk (Some (Database (Some (Table {[ "python"%string := 3 ]} 0))))
         (Some Incomplete) ∧
  outcome (main [event (PBool true)] no_files) =
    (inr tt,
     Disk (Some (Database (Some (Table {[ "1"%string := 1 ]} 0))))
          (Some (JsonDocument {[ "true"%string := 1 ]}))) ∧
  outcome (counted (event (PStr "5"))
             (final (main [event (PStr "5"); event (PStr "5"); event (PInt 5)]
                          no_files))) =
    (inr tt,
     Disk (Some (Database (Some (Table {[ "5"%string := 4 ]} 0))))
          (Some (JsonDocument {[ "5"%string := 1 ]}))).
Proof. by vm_compute. Qed.

(** ** Rewriting the snapshot file *)

Lemma load_and_increment_state keyword w counts w1 :
  load_and_increment keyword w = Returned counts w1 → w1 = w.
Proof.
  run. destruct (json_file (files w)) as [[|loaded]|]; simpl; try done;
    destruct (as_key keyword); simpl; intros; simplify_eq; done.
Qed.

Lemma update_json_file_opened keyword w :
  update_json_file keyword w =
    (counts <- opened keyword ;; json_dump counts) w.
Proof.
  unfold update_json_file, opened, bind.
  by destruct (load_and_increment keyword w).
Qed.

(** C9, as the code has it.  [update_json_file] writes in place: it is
    [opened], which ends with [open(json_path, "w")], followed by
    [json.dump] into the opened file.  Once the counts are loaded and
    incremented the open leaves the file on disk without a document; when
    [json.dump] gets through, the file holds the whole new document; when
    it raises on the way the file stays without one, the old document
    lost.  The table is not touched. *)
Theorem snapshot_rewritten_in_place (keyword : pyval) (counts : pydict)
    (w w1 : world) :
  load_and_increment keyword w = Returned counts w1 →
  (∀ w0, update_json_file keyword w0 =
           (counts' <- opened keyword ;; json_dump counts') w0) ∧
  ∃ w2,
    opened keyword w = Returned counts w2 ∧
    json_file (files w2) = Some Incomplete ∧
    sqlite_file (files w2) = sqlite_file (files w) ∧
    update_json_file keyword w = json_dump counts w2 ∧
    ((∃ v, scalar_item counts = Some (None, v)) →
       update_json_file keyword w = Raised ValueError w2) ∧
    ((∀ v, scalar_item counts ≠ Some (None, v)) →
       ∃ w3, update_json_file keyword w = Returned tt w3 ∧
             json_file (files w3) = Some (JsonDocument (dumped counts)) ∧
             sqlite_file (files w3) = sqlite_file (files w)).
Proof.
  intros Hload. split; [apply update_json_file_opened|].
  pose proof (load_and_increment_state _ _ _ _ Hload) as ->.
  set (w2 := World (Disk (sqlite_file (files w)) (Some Incomplete)) (log w)).
  assert (Hopened : opened keyword w = Returned counts w2).
  { unfold opened, bind. by rewrite Hload. }
  assert (Hupdate : update_json_file keyword w = json_dump counts w2).
  { rewrite update_json_file_opened. unfold bind at 1. by rewrite Hopened. }
  exists w2. split; [done|]. split; [done|]. split; [done|].
  split; [done|]. rewrite Hupdate. unfold json_dump. split.
  - intros [v Hv]. by rewrite Hv.
  - intros Hv.
    destruct (scalar_item counts) as [[[text|] v]|] eqn:Hitem;
      [|by destruct (Hv v)|]; by eexists.
Qed.

Lemma snapshot_rewritten_in_place_witness :
  (∀ w0, update_json_file (PStr "python") w0 =
           (counts' <- opened (PStr "python") ;; json_dump counts') w0) ∧
  ∃ w2,
    opened (PStr "python") prior_run
      = Returned (PyDict {[ "python"%string := 6 ]} None) w2 ∧
    json_file (files w2) = Some Incomplete ∧
    sqlite_file (files w2) = sqlite_file (files prior_run) ∧
    update_json_file (PStr "python") prior_run
      = json_dump (PyDict {[ "python"%string := 6 ]} None) w2 ∧
    ((∃ v, scalar_item (PyDict {[ "python"%string := 6 ]} None)
             = Some (None, v)) →
       update_json_file (PStr "python") prior_run = Raised ValueError w2) ∧
    ((∀ v, scalar_item (PyDict {[ "python"%string := 6 ]} None)
             ≠ Some (None, v)) →
       ∃ w3, update_json_file (PStr "python") prior_run = Returned tt w3 ∧
             json_file (files w3) = Some (JsonDocument
               (dumped (PyDict {[ "python"%string := 6 ]} None))) ∧
             sqlite_file (files w3) = sqlite_file (files prior_run)).
Proof.
  refine (snapshot_rewritten_in_place (PStr "python")
            (PyDict {[ "python"%string := 6 ]} None) prior_run prior_run _).
  vm_compute. reflexivity.
Defined.

(** C9 fails on the code.  In the middle of an update the snapshot file
    holds neither the old document nor the new one, and [json.load] of it
    raises.  The state can even stay: with a keyword that [json.dump]
    cannot write (an int of 4301 digits) [update_json_file] raises after
    the open, and the file that held python: 5 is left without a
    document. *)
Lemma snapshot_left_incomplete :
  json_file (files prior_run)
    = Some (JsonDocument {[ "python"%string := 5 ]}) ∧
  json_file (files (final (opened (PStr "python") prior_run)))
    = Some Incomplete ∧
  json_file (files (final (update_json_file (PStr "python") prior_run)))
    = Some (JsonDocument {[ "python"%string := 6 ]}) ∧
  outcome (update_json_file (PInt (10 ^ 4300)) prior_run)
    = (inl ValueError,
       Disk (sqlite_file (files prior_run)) (Some Incomplete)) ∧
  outcome (json_load Incomplete prior_run)
    = (inl JSONDecodeError, files prior_run).
Proof. by vm_compute. Qed.

(** ** Counts stay within SQLite's INTEGER *)

Lemma for_each_bounded consumer w (n : Z) :
  0 ≤ n →
  (∀ k c, durable_counts w !! k = Some c → 1 ≤ c ≤ n) →
  ∀ k c, durable_counts (final (for_each process_message consumer w)) !! k
           = Some c →
         1 ≤ c ≤ n + Z.of_nat (length consumer).
Proof.
  revert w n. induction consumer as [|message consumer IH];
    intros w n Hn Hw k c; cbn [for_each length].
  - intros Hc. specialize (Hw k c Hc). simpl in *. lia.
  - rewrite Nat2Z.inj_succ, final_bind.
    assert (Hstep : ∀ k c,
      durable_counts (final (process_message message w)) !! k = Some c →
      1 ≤ c ≤ n + 1).
    { clear k c. intros k c.
      destruct (process_message_cases message w)
        as [Hsame | (fields & keyword & -> & Hf & Ht & Hfmt & ->)].
      - rewrite (durable_counts_files _ _ Hsame). intros Hc.
        specialize (Hw k c Hc). lia.
      - rewrite final_bind. set (w0 := World _ _).
        pose proof (update_keyword_count_durable keyword w0) as Hd.
        assert (Hjson : ∀ w1, durable_counts
                  (final (update_json_file keyword w1)) = durable_counts w1).
        { intros w1. apply durable_counts_sqlite, update_json_file_sqlite. }
        assert (Hk : ∀ k c,
          durable_counts (final (update_keyword_count keyword w0)) !! k
            = Some c → 1 ≤ c ≤ n + 1).
        { clear k c. intros k c.
          destruct Hd as [-> | (k' & _ & ->)].
          - intros Hc. specialize (Hw k c Hc). lia.
          - rewrite count_up_lookup. case_decide; subst.
            + intros [= <-]. change (durable_counts w0) with (durable_counts w).
              destruct (durable_counts w !! k) as [c0|] eqn:Hc0; simpl; [|lia].
              specialize (Hw k c0 Hc0). lia.
            + intros Hc. specialize (Hw k c Hc). lia. }
        destruct (update_keyword_count keyword w0) as [[] w1|e w1];
          cbn [final] in *; [rewrite Hjson|]; apply Hk. }
    intros Hc.
    destruct (process_message message w) as [[] w1|e w1]; cbn [final] in *.
    + specialize (IH w1 (n + 1) ltac:(lia) Hstep k c Hc). lia.
    + specialize (Hstep k c Hc). lia.
Qed.

(** No count exceeds the number of messages of the run: below 2^63
    messages every count fits SQLite's 64-bit INTEGER. *)
Lemma counts_bounded consumer w k c :
  durable_counts (final (main consumer w)) !! k = Some c →
  1 ≤ c ≤ Z.of_nat (length consumer).
Proof.
  destruct (main_for_each w) as (w1 & Hfresh & ->). intros Hc.
  apply (for_each_bounded consumer w1 0) in Hc; [lia|done|].
  intros k' c'. unfold durable_counts. rewrite Hfresh. simpl.
  by rewrite lookup_empty.
Qed.

(** ** Exceptions *)

Lemma skipped_returns message w :
  skipped message = true →
  ∃ w', process_message message w = Returned tt w' ∧ files w' = files w.
Proof.
  destruct message as [| | | | | |fields]; simpl; try done.
  intros Hfalsy%negb_true_iff.
  rewrite process_message_falsy by done. by eexists.
Qed.

Lemma update_keyword_count_has_table keyword w t :
  sqlite_file (files w) = Some (Database (Some t)) →
  ∃ t', sqlite_file (files (final (update_keyword_count keyword w)))
          = Some (Database (Some t')).
Proof.
  destruct w as [[db json] l]. simpl. intros ->. run.
  destruct (bind_parameter keyword); simpl; eauto.
Qed.

Lemma process_message_has_table message w t :
  sqlite_file (files w) = Some (Database (Some t)) →
  ∃ t', sqlite_file (files (final (process_message message w)))
          = Some (Database (Some t')).
Proof.
  intros Hdb. destruct (process_message_cases message w)
    as [Hsame | (fields & keyword & -> & Hf & Ht & Hfmt & ->)].
  - exists t. by rewrite Hsame.
  - rewrite final_bind. set (w0 := World _ _).
    destruct (update_keyword_count_has_table keyword w0 t Hdb) as (t' & Ht').
    destruct (update_keyword_count keyword w0) as [[] w1|e w1];
      cbn [final] in *; [|eauto].
    exists t'. by rewrite update_json_file_sqlite.
Qed.

Lemma main_has_table consumer w :
  ∃ t, sqlite_file (files (final (main consumer w)))
         = Some (Database (Some t)).
Proof.
  destruct (main_for_each w) as (w1 & Hfresh & ->).
  assert (Hstart : ∃ t, sqlite_file (files w1) = Some (Database (Some t)))
    by (rewrite Hfresh; simpl; eauto).
  clear Hfresh. revert w1 Hstart.
  induction consumer as [|message consumer IH]; intros w1 [t Hdb]; [eauto|].
  cbn [for_each]. rewrite final_bind.
  destruct (process_message_has_table message w1 t Hdb) as (t' & Ht').
  destruct (process_message message w1) as [[] w2|e w2]; cbn [final] in *;
    eauto.
Qed.

(** The loop at one message: whatever [process_message] raises there is
    the result of the run. *)
Lemma main_at_message pre message post w w1 :
  main pre w = Returned tt w1 →
  main (pre ++ message :: post) w =
    match process_message message w1 with
    | Raised e w2 => Raised e w2
    | Returned _ w2 => for_each process_message post w2
    end.
Proof.
  destruct (main_for_each w) as (w0 & _ & Hmain). rewrite !Hmain.
  intros Hpre. by rewrite for_each_cons_app, Hpre.
Qed.

(** C3, as the code has it.  Nothing in the loop or in [process_message]
    catches an exception.  A message whose keyword is missing or falsy is
    skipped with a warning and the loop goes on with the next record.
    Every other failure ends the run: a payload that is not an object
    raises [AttributeError]; a truthy keyword whose text cannot be built
    for the log raises [ValueError]; a keyword that [sqlite3] cannot bind
    (a list, a dict, an int beyond 64 bits, a string with a lone
    surrogate) raises the exception of the binding, the files being as the
    messages before had left them; and whatever exception
    [process_message] raises is the result of [main], the records behind
    that message never being processed. *)
Theorem exception_ends_the_loop (pre post : list pyval) (message : pyval)
    (w w1 : world) :
  main pre w = Returned tt w1 →
  (skipped message = true →
     ∃ w2, process_message message w1 = Returned tt w2 ∧
           files w2 = files w1 ∧
           main (pre ++ message :: post) w
             = for_each process_message post w2) ∧
  ((∀ fields, message ≠ PDict fields) →
     main (pre ++ message :: post) w = Raised AttributeError w1) ∧
  (∀ fields keyword,
     message = PDict fields →
     fields !! "keyword_mentioned"%string = Some keyword →
     truthy keyword = true →
     (formattable keyword = false →
        main (pre ++ message :: post) w = Raised ValueError w1) ∧
     (formattable keyword = true →
        ∀ e, bind_parameter keyword = inl e →
             ∃ w2, main (pre ++ message :: post) w = Raised e w2 ∧
                   files w2 = files w1)) ∧
  (∀ e w2, process_message message w1 = Raised e w2 →
           main (pre ++ message :: post) w = Raised e w2).
Proof.
  intros Hpre. pose proof (main_at_message pre message post w w1 Hpre) as Hat.
  split; [|split; [|split]].
  - intros Hskip. destruct (skipped_returns message w1 Hskip)
      as (w2 & Hrun & Hsame).
    exists w2. by rewrite Hat, Hrun.
  - intros Hshape. rewrite Hat.
    destruct message; try done. by destruct (Hshape fields).
  - intros fields keyword -> Hf Ht. split.
    + intros Hfmt. rewrite Hat. run. rewrite Hf. simpl. rewrite Ht. simpl.
      by rewrite Hfmt.
    + intros Hfmt e He. rewrite Hat.
      destruct (main_has_table pre w) as (t & Hdb).
      rewrite Hpre in Hdb. simpl in Hdb.
      destruct w1 as [[db json] l]. simpl in Hdb. subst db.
      run. rewrite Hf. simpl. rewrite Ht. simpl. rewrite Hfmt. simpl.
      rewrite He. simpl. by eexists.
  - intros e w2 Hraise. by rewrite Hat, Hraise.
Qed.

Lemma exception_ends_the_loop_witness :
  ∃ w2, main ([event (PStr "python")] ++
              event (PList [PStr "python"]) :: [event (PStr "rust")]) no_files
          = Raised ProgrammingError w2 ∧
        files w2 = files (final (main [event (PStr "python")] no_files)).
Proof.
  refine (proj2 (proj1 (proj2 (proj2 (exception_ends_the_loop
            [event (PStr "python")] [event (PStr "rust")]
            (event (PList [PStr "python"])) no_files
            (final (main [event (PStr "python")] no_files)) _)))
            {[ "keyword_mentioned"%string := PList [PStr "python"] ]}
            (PList [PStr "python"]) _ _ _) _ ProgrammingError _).
  - vm_compute. reflexivity.
  - reflexivity.
  - vm_compute. reflexivity.
  - reflexivity.
  - reflexivity.
  - reflexivity.
Defined.

(** C3 fails on the code: a keyword that [sqlite3] cannot bind, or a
    payload that is not an object, raises out of [process_message], of the
    loop and of [main]; the valid event behind it is never counted. *)
Lemma exception_escapes_main :
  outcome (main [event (PList [PStr "python"]); event (PStr "python")] no_files)
    = (inl ProgrammingError, fresh_disk) ∧
  outcome (main [PList []; event (PStr "python")] no_files)
    = (inl AttributeError, fresh_disk) ∧
  outcome (main [event (PStr "python")] no_files)
    = (inr tt,
       Disk (Some (Database (Some (Table {[ "python"%string := 1 ]} 0))))
            (Some (JsonDocument {[ "python"%string := 1 ]}))).
Proof. by vm_compute. Qed.

(** ** Messages without a keyword, in a feed *)

(** C4, as the code has it.  A decoded message that is an object without
    [keyword_mentioned], or with the empty string there, changes no count:
    [process_message] returns with both files as they were.  The loop goes
    on: in a feed of countable events with such a message anywhere in it,
    [main] returns, every keyword has exactly the count of its
    occurrences before and after that message, in the table and in the
    snapshot; and for any feed the run ends with the same files, and
    returns or raises the same, as without that message. *)
Theorem process_message_missing_keyword (fields : gmap string pyval) :
  fields !! "keyword_mentioned"%string = None ∨
  fields !! "keyword_mentioned"%string = Some (PStr "") →
  (∀ w, ∃ w', process_message (PDict fields) w = Returned tt w' ∧
              files w' = files w ∧
              durable_counts w' = durable_counts w ∧
              snapshot_counts w' = snapshot_counts w) ∧
  (∀ pre post w,
     Forall countable_event pre →
     Forall countable_event post →
     ∃ w', main (pre ++ PDict fields :: post) w = Returned tt w' ∧
           (∀ k, durable_counts w' !! k =
                 if decide (occurrences k (pre ++ post) = 0) then None
                 else Some (occurrences k (pre ++ post))) ∧
           snapshot_counts w' = durable_counts w') ∧
  (∀ pre post w,
     outcome (main (pre ++ PDict fields :: post) w) =
     outcome (main (pre ++ post) w)).
Proof.
  intros Hmissing.
  assert (Hskip : ∀ w, process_message (PDict fields) w =
            Returned tt (World (files w)
              (log w ++ [Warning "Message missing keyword_mentioned field."]))).
  { intros w. apply process_message_falsy. by destruct Hmissing as [-> | ->]. }
  split; [|split].
  - intros w. eexists. split; [apply Hskip|done].
  - intros pre post w Hpre Hpost.
    destruct (main_for_each w) as (w0 & Hfresh & Hmain). rewrite Hmain.
    destruct (for_each_valid pre ∅ w0 Hpre (fresh_disk_synced _ Hfresh))
      as (w1 & Hrun1 & Hsync1).
    rewrite for_each_cons_app, Hrun1, Hskip.
    destruct (for_each_valid post (tally pre ∅)
                (World (files w1)
                   (log w1 ++
                    [Warning "Message missing keyword_mentioned field."]))
                Hpost Hsync1) as (w2 & Hrun2 & Hsync2).
    exists w2. split; [done|].
    destruct (synced_counts _ _ Hsync2) as [-> ->]. split; [|done].
    intros k. replace (tally post (tally pre ∅)) with (tally (pre ++ post) ∅)
      by (unfold tally; by rewrite foldl_app).
    rewrite tally_lookup, lookup_empty. simpl.
    case_decide; [done|]. f_equal.
  - intros pre post w. destruct (main_for_each w) as (w1 & _ & Hmain).
    rewrite !Hmain. apply for_each_skip.
    + apply log_blind_process_message.
    + intros w0. eexists. split; [apply Hskip|done].
Qed.

Lemma process_message_missing_keyword_witness :
  (∀ w, ∃ w', process_message (PDict {[ "foo"%string := PStr "bar" ]}) w
                = Returned tt w' ∧
              files w' = files w ∧
              durable_counts w' = durable_counts w ∧
              snapshot_counts w' = snapshot_counts w) ∧
  (∀ pre post w,
     Forall countable_event pre →
     Forall countable_event post →
     ∃ w', main (pre ++ PDict {[ "foo"%string := PStr "bar" ]} :: post) w
             = Returned tt w' ∧
           (∀ k, durable_counts w' !! k =
                 if decide (occurrences k (pre ++ post) = 0) then None
                 else Some (occurrences k (pre ++ post))) ∧
           snapshot_counts w' = durable_counts w') ∧
  (∀ pre post w,
     outcome (main (pre ++ PDict {[ "foo"%string := PStr "bar" ]} :: post) w) =
     outcome (main (pre ++ post) w)).
Proof.
  refine (process_message_missing_keyword {[ "foo"%string := PStr "bar" ]} _).
  left. reflexivity.
Defined.

Example foo_bar_then_python :
  outcome (main [PDict {[ "foo"%string := PStr "bar" ]}; event (PStr "python")]
             prior_run) =
  (inr tt, Disk (Some (Database (Some (Table {[ "python"%string := 1 ]} 0))))
                (Some (JsonDocument {[ "python"%string := 1 ]}))).
Proof. by vm_compute. Qed.

(** C4 fails on the code for a payload that is not an object: null and
    the string "foo" carry no [keyword_mentioned] either, but
    [message.get] raises [AttributeError] on them, the run ends, and the
    valid event behind is never counted. *)
Lemma non_object_without_keyword_stops_run :
  outcome (main [PNone; event (PStr "python")] no_files)
    = (inl AttributeError, fresh_disk) ∧
  outcome (main [PStr "foo"; event (PStr "python")] no_files)
    = (inl AttributeError, fresh_disk) ∧
  durable_counts (final (main [PNone; event (PStr "python")] no_files))
    !! "python"%string = None.
Proof. by vm_compute. Qed.

(** * Further properties of the functions *)

(** ** [init_db] *)

(** [init_db] keeps the rows of a table that is already there, so it is
    the two unlinks of [main] that start a run from zero: on the files of
    an earlier run, [init_db] followed by the loop returns with the old
    counts continued, each keyword at its old count plus its occurrences
    in the new feed. *)
Theorem init_db_continues_prior_counts (m : gmap string Z)
    (consumer : list pyval) (w : world) :
  synced m (files w) →
  Forall countable_event consumer →
  ∃ w', (init_db ;; consume_messages consumer) w = Returned tt w' ∧
        durable_counts w' = tally consumer m ∧
        snapshot_counts w' = tally consumer m ∧
        ∀ k, durable_counts w' !! k =
             if decide (occurrences k consumer = 0) then m !! k
             else Some (default 0 (m !! k) + occurrences k consumer).
Proof.
  intros Hsync Hvalid.
  destruct (init_db_files w) as (w1 & Hinit & Hfiles1).
  assert (Hsame : files w1 = files w).
  { rewrite Hfiles1. destruct Hsync as [Hdb _].
    destruct (files w) as [db json]. simpl in *. by subst db. }
  rewrite (bind_returned _ _ _ _ _ Hinit), consume_messages_loop.
  destruct (for_each_valid consumer m (final (consume_messages [] w1)) Hvalid)
    as (w' & Hrun & Hsync').
  { simpl. by rewrite Hsame. }
  exists w'. split; [done|].
  destruct (synced_counts _ _ Hsync') as [-> ->].
  split; [done|]. split; [done|]. intros k. apply tally_lookup.
Qed.

Lemma init_db_continues_prior_counts_witness :
  ∃ w', (init_db ;; consume_messages [event (PStr "python")]) prior_run
          = Returned tt w' ∧
        durable_counts w'
          = tally [event (PStr "python")] {[ "python"%string := 5 ]} ∧
        snapshot_counts w'
          = tally [event (PStr "python")] {[ "python"%string := 5 ]} ∧
        ∀ k, durable_counts w' !! k =
             if decide (occurrences k [event (PStr "python")] = 0)
             then ({[ "python"%string := 5 ]} : gmap string Z) !! k
             else Some (default 0
                          (({[ "python"%string := 5 ]} : gmap string Z) !! k)
                        + occurrences k [event (PStr "python")]).
Proof.
  refine (init_db_continues_prior_counts {[ "python"%string := 5 ]}
            [event (PStr "python")] prior_run _ _).
  - split; [reflexivity|]. left. reflexivity.
  - repeat apply Forall_cons_2; try apply Forall_nil_2;
      eexists; split; vm_compute; reflexivity.
Defined.

(** ** [update_keyword_count] *)

(** Without the table (no database file, or a database that [init_db] has
    not set up) [update_keyword_count] raises [OperationalError] for every
    keyword; the connection leaves a database file without the table
    behind and the snapshot is untouched. *)
Theorem update_keyword_count_no_table (keyword : pyval) (w : world) :
  sqlite_file (files w) = None ∨
  sqlite_file (files w) = Some (Database None) →
  update_keyword_count keyword w =
    Raised OperationalError
      (World (Disk (Some (Database None)) (json_file (files w))) (log w)).
Proof.
  intros Hno. run. by destruct Hno as [-> | ->].
Qed.

Lemma update_keyword_count_no_table_witness :
  update_keyword_count (PStr "python") no_files =
    Raised OperationalError
      (World (Disk (Some (Database None)) (json_file (files no_files)))
             (log no_files)).
Proof.
  refine (update_keyword_count_no_table (PStr "python") no_files _).
  left. reflexivity.
Defined.

(** With the table in place, [update_keyword_count] raises for exactly
    four kinds of keyword: a list and a dict ([ProgrammingError]), an int
    outside the signed 64-bit range ([OverflowError]) and a string that
    holds a lone surrogate ([UnicodeEncodeError]).  A call that raises
    leaves the table, the snapshot and the log as they were. *)
Theorem update_keyword_count_failures (t : table) (w : world) :
  sqlite_file (files w) = Some (Database (Some t)) →
  (∀ items, update_keyword_count (PList items) w = Raised ProgrammingError w) ∧
  (∀ fields, update_keyword_count (PDict fields) w = Raised ProgrammingError w) ∧
  (∀ z, ¬ (- 2 ^ 63 ≤ z < 2 ^ 63) →
        update_keyword_count (PInt z) w = Raised OverflowError w) ∧
  (∀ s, has_lone_surrogate s = true →
        update_keyword_count (PStr s) w = Raised UnicodeEncodeError w) ∧
  (∀ keyword e w', update_keyword_count keyword w = Raised e w' →
     w' = w ∧
     ((∃ items, keyword = PList items) ∨
      (∃ fields, keyword = PDict fields) ∨
      (∃ z, keyword = PInt z ∧ ¬ (- 2 ^ 63 ≤ z < 2 ^ 63)) ∨
      (∃ s, keyword = PStr s ∧ has_lone_surrogate s = true))).
Proof.
  destruct w as [[db json] l]. simpl. intros ->.
  split; [|split; [|split; [|split]]].
  - intros items. reflexivity.
  - intros fields. reflexivity.
  - intros z Hz. run. by rewrite bool_decide_eq_false_2.
  - intros s Hs. run. by rewrite Hs.
  - intros keyword e w'. run.
    destruct keyword as [|b|z|f|s|items|fields]; simpl; try done.
    + case_bool_decide; simpl; [done|]. intros [= <- <-]. eauto 10.
    + destruct (has_lone_surrogate s) eqn:Hs; simpl; [|done].
      intros [= <- <-]. eauto 10.
    + intros [= <- <-]. eauto 10.
    + intros [= <- <-]. eauto 10.
Qed.

Lemma update_keyword_count_failures_witness :
  (∀ items, update_keyword_count (PList items) prior_run
              = Raised ProgrammingError prior_run) ∧
  (∀ fields, update_keyword_count (PDict fields) prior_run
               = Raised ProgrammingError prior_run) ∧
  (∀ z, ¬ (- 2 ^ 63 ≤ z < 2 ^ 63) →
        update_keyword_count (PInt z) prior_run
          = Raised OverflowError prior_run) ∧
  (∀ s, has_lone_surrogate s = true →
        update_keyword_count (PStr s) prior_run
          = Raised UnicodeEncodeError prior_run) ∧
  (∀ keyword e w', update_keyword_count keyword prior_run = Raised e w' →
     w' = prior_run ∧
     ((∃ items, keyword = PList items) ∨
      (∃ fields, keyword = PDict fields) ∨
      (∃ z, keyword = PInt z ∧ ¬ (- 2 ^ 63 ≤ z < 2 ^ 63)) ∨
      (∃ s, keyword = PStr s ∧ has_lone_surrogate s = true))).
Proof.
  refine (update_keyword_count_failures
            (Table {[ "python"%string := 5 ]} 0) prior_run _).
  reflexivity.
Defined.

(** With the table in place, [update_keyword_count] on a string that has a
    UTF-8 encoding returns; the row of that string goes from nothing to 1
    or from its count to one more, and every other row, the rows with a
    NULL keyword, the snapshot and the log stay as they were.  The
    function does not look at the string otherwise: the empty string gets
    a row like any other. *)
Theorem update_keyword_count_changes_one_row (k : string) (t : table) (w : world) :
  has_lone_surrogate k = false →
  sqlite_file (files w) = Some (Database (Some t)) →
  ∃ w' t', update_keyword_count (PStr k) w = Returned tt w' ∧
           sqlite_file (files w') = Some (Database (Some t')) ∧
           rows t' !! k = Some (default 0 (rows t !! k) + 1) ∧
           (∀ k', k' ≠ k → rows t' !! k' = rows t !! k') ∧
           null_rows t' = null_rows t ∧
           json_file (files w') = json_file (files w) ∧
           log w' = log w.
Proof.
  intros Hutf8. destruct w as [[db json] l]. simpl. intros ->. run.
  rewrite Hutf8. simpl.
  do 2 eexists. split; [reflexivity|]. simpl.
  split; [reflexivity|]. simpl. split; [|split; [|done]].
  - rewrite lookup_insert_eq. by destruct (rows t !! k).
  - intros k' Hne. by rewrite lookup_insert_ne.
Qed.

Lemma update_keyword_count_changes_one_row_witness :
  ∃ w' t', update_keyword_count (PStr "") prior_run = Returned tt w' ∧
           sqlite_file (files w') = Some (Database (Some t')) ∧
           rows t' !! ""%string =
             Some (default 0 (rows (Table {[ "python"%string := 5 ]} 0)
                                !! ""%string) + 1) ∧
           (∀ k', k' ≠ ""%string →
              rows t' !! k' = rows (Table {[ "python"%string := 5 ]} 0) !! k') ∧
           null_rows t' = null_rows (Table {[ "python"%string := 5 ]} 0) ∧
           json_file (files w') = json_file (files prior_run) ∧
           log w' = log prior_run.
Proof.
  refine (update_keyword_count_changes_one_row ""
            (Table {[ "python"%string := 5 ]} 0) prior_run _ _).
  - reflexivity.
  - reflexivity.
Defined.

(** ** [update_json_file] *)



(** A keyword that is hashable but not a string (null, a boolean, an int,
    a float) is written to the snapshot under the text [json.dump] gives
    its key, always with count 1: whatever count that text had in the
    file is replaced, and the other entries are kept. *)
Theorem update_json_file_scalar_keyword (keyword : pyval) (text : string) (w : world) :
  as_key keyword = inr (KeyScalar text) →
  json_file (files w) ≠ Some Incomplete →
  ∃ w', update_json_file keyword w = Returned tt w' ∧
        snapshot_counts w' = <[text := 1]> (snapshot_counts w) ∧
        snapshot_counts w' !! text = Some 1 ∧
        sqlite_file (files w') = sqlite_file (files w).
Proof.
  intros Hkey Hfile. unfold snapshot_counts.
  destruct w as [[db [[|counts]|]] l]; simpl in *; [done| |];
    run; rewrite Hkey; simpl;
    (eexists; split; [reflexivity|]); simpl;
    (split; [reflexivity|]); (split; [|done]); unfold dumped; simpl;
    apply lookup_insert_eq.
Qed.

Lemma update_json_file_scalar_keyword_witness :
  ∃ w', update_json_file (PInt 5) prior_run = Returned tt w' ∧
        snapshot_counts w' = <["5"%string := 1]> (snapshot_counts prior_run) ∧
        snapshot_counts w' !! "5"%string = Some 1 ∧
        sqlite_file (files w') = sqlite_file (files prior_run).
Proof.
  refine (update_json_file_scalar_keyword (PInt 5) "5" prior_run _ _).
  - vm_compute. reflexivity.
  - discriminate.
Defined.

(** The exceptions of [update_json_file].  [JSONDecodeError] (the file
    holds no document) and [TypeError] (list or dict keyword) come before
    the file is opened for writing and leave files and log exactly as they
    were.  [ValueError] (an int keyword too long to be written) comes from
    [json.dump] after the open: the file is left without a document and
    what it held is lost. *)
Theorem update_json_file_failures (keyword : pyval) (w : world) :
  (json_file (files w) = Some Incomplete →
   update_json_file keyword w = Raised JSONDecodeError w) ∧
  (json_file (files w) ≠ Some Incomplete →
   as_key keyword = inl TypeError →
   update_json_file keyword w = Raised TypeError w) ∧
  (json_file (files w) ≠ Some Incomplete →
   as_key keyword = inr KeyHugeInt →
   update_json_file keyword w =
     Raised ValueError
       (World (Disk (sqlite_file (files w)) (Some Incomplete)) (log w))) ∧
  (∀ e w', update_json_file keyword w = Raised e w' →
     (e = ValueError ∧ as_key keyword = inr KeyHugeInt ∧
      json_file (files w') = Some Incomplete) ∨
     (w' = w ∧ (e = JSONDecodeError ∨ e = TypeError))).
Proof.
  assert (Htype : ∀ e', as_key keyword = inl e' → e' = TypeError).
  { destruct keyword; simpl; intros e' He'; simplify_eq; try done.
    by case_match. }
  destruct w as [[db json] l]; simpl. split; [|split; [|split]].
  - intros ->. reflexivity.
  - intros Hfile Hkey. destruct json as [[|counts]|]; [done| |];
      run; by rewrite Hkey.
  - intros Hfile Hkey. destruct json as [[|counts]|]; [done| |];
      run; by rewrite Hkey.
  - intros e w'. destruct json as [[|counts]|]; run.
    + intros [= <- <-]. auto.
    + destruct (as_key keyword) as [e'|[s|text|]] eqn:Hkey; simpl;
        intros H; simplify_eq; auto.
    + destruct (as_key keyword) as [e'|[s|text|]] eqn:Hkey; simpl;
        intros H; simplify_eq; auto.
Qed.

Lemma update_json_file_failures_witness :
  update_json_file (PInt (10 ^ 4300)) prior_run =
    Raised ValueError
      (World (Disk (sqlite_file (files prior_run)) (Some Incomplete))
             (log prior_run)).
Proof.
  refine (proj1 (proj2 (proj2 (update_json_file_failures
                   (PInt (10 ^ 4300)) prior_run))) _ _).
  - discriminate.
  - vm_compute. reflexivity.
Defined.

(** The two store updates act on different files: done in either order
    from the same state they return together and then end in the same
    state. *)
Theorem store_updates_commute (k1 k2 : pyval) (w w' : world) :
  (update_keyword_count k1 ;; update_json_file k2) w = Returned tt w' ↔
  (update_json_file k2 ;; update_keyword_count k1) w = Returned tt w'.
Proof.
  destruct w as [[db json] l]. run.
  destruct json as [[|counts]|]; simpl;
    destruct (as_key k2) as [e'|[s|text|]]; simpl;
    destruct (insert_keyword k1 (default (Database None) db)) as [e|db'];
    simpl; split; intros H; first [exact H | discriminate H].
Qed.

(** ** [process_message] *)

(** When the snapshot file cannot be read (it holds no document), a valid
    event whose keyword has a UTF-8 encoding is applied by half: the table
    row of its keyword is incremented, then [update_json_file] raises
    [JSONDecodeError] and the snapshot stays as it was. *)
Theorem process_message_half_applied (message : pyval) (k : string)
    (t : table) (w : world) :
  keyword_mentioned message = Some k →
  has_lone_surrogate k = false →
  sqlite_file (files w) = Some (Database (Some t)) →
  json_file (files w) = Some Incomplete →
  ∃ w', process_message message w = Raised JSONDecodeError w' ∧
        durable_counts w' = count_up k (rows t) ∧
        json_file (files w') = Some Incomplete.
Proof.
  intros (fields & -> & Hf & Ht)%keyword_mentioned_Some Hutf8.
  destruct w as [[db json] l]. simpl. intros -> ->.
  unfold durable_counts. run. rewrite Hf. simpl in *. rewrite Ht. simpl.
  rewrite Hutf8. simpl.
  eexists. split; [reflexivity|]. simpl. split; [|done].
  unfold count_up. by destruct (rows t !! k).
Qed.

Lemma process_message_half_applied_witness :
  ∃ w', process_message (event (PStr "python")) interrupted
          = Raised JSONDecodeError w' ∧
        durable_counts w' =
          count_up "python"
            (rows (Table {[ "python"%string := 2; "rust"%string := 1 ]} 0)) ∧
        json_file (files w') = Some Incomplete.
Proof.
  refine (process_message_half_applied (event (PStr "python")) "python"
            (Table {[ "python"%string := 2; "rust"%string := 1 ]} 0)
            interrupted _ _ _ _).
  - vm_compute. reflexivity.
  - reflexivity.
  - reflexivity.
  - reflexivity.
Defined.

(** ** [consume_messages] and [main] *)

(** A payload that is not a JSON object (a list, a string, a number,
    null) ends the run with [AttributeError] in exactly the state the
    messages before it had produced: nothing is logged or written for it,
    and the messages behind it are not read. *)
Theorem non_object_payload_ends_run (pre post : list pyval) (message : pyval)
    (w w1 : world) :
  (∀ fields, message ≠ PDict fields) →
  main pre w = Returned tt w1 →
  main (pre ++ message :: post) w = Raised AttributeError w1.
Proof.
  intros Hshape Hpre. destruct (main_for_each w) as (w0 & _ & Hmain).
  rewrite Hmain in *. rewrite for_each_cons_app, Hpre.
  destruct message; try done. by destruct (Hshape fields).
Qed.

Lemma non_object_payload_ends_run_witness :
  main ([event (PStr "python")] ++ PList [] :: [event (PStr "rust")]) prior_run
    = Raised AttributeError (final (main [event (PStr "python")] prior_run)).
Proof.
  refine (non_object_payload_ends_run [event (PStr "python")]
            [event (PStr "rust")] (PList []) prior_run
            (final (main [event (PStr "python")] prior_run)) _ _).
  - intros fields. discriminate.
  - vm_compute. reflexivity.
Defined.

(** What a run leaves on disk, and whether it returns or raises, depends
    on the feed alone: whatever files and log an earlier run left behind,
    they make no difference. *)
Theorem main_ignores_prior_state (consumer : list pyval) (w w' : world) :
  outcome (main consumer w) = outcome (main consumer w').
Proof.
  destruct (main_for_each w) as (w1 & Hfresh & ->).
  destruct (main_for_each w') as (w1' & Hfresh' & ->).
  apply log_blind_for_each; [apply log_blind_process_message|].
  by rewrite Hfresh, Hfresh'.
Qed.

(** In a run of fewer than 2^63 messages every count of the table is at
    least 1, at most the number of messages, and so within SQLite's 64-bit
    INTEGER, whatever the messages are. *)
Theorem table_counts_fit_integer (consumer : list pyval) (w : world)
    (k : string) (c : Z) :
  Z.of_nat (length consumer) < 2 ^ 63 →
  durable_counts (final (main consumer w)) !! k = Some c →
  1 ≤ c ≤ Z.of_nat (length consumer) ∧ c < 2 ^ 63.
Proof.
  intros Hlen Hc. apply counts_bounded in Hc. lia.
Qed.

Lemma table_counts_fit_integer_witness :
  1 ≤ 2 ≤ Z.of_nat (length [event (PStr "python"); event (PInt 7);
                            event (PStr "python")]) ∧ 2 < 2 ^ 63.
Proof.
  refine (table_counts_fit_integer
            [event (PStr "python"); event (PInt 7); event (PStr "python")]
            prior_run "python" 2 _ _).
  - vm_compute. reflexivity.
  - vm_compute. reflexivity.
Defined.

Lemma occurrences_Permutation k consumer consumer' :
  consumer ≡ₚ consumer' → occurrences k consumer = occurrences k consumer'.
Proof. unfold occurrences. by intros ->. Qed.

(** For valid events whose keywords have a UTF-8 encoding the order of
    the feed does not matter: two feeds that are rearrangements of each
    other both return and leave the same counts in the table and in the
    snapshot. *)
Theorem order_of_valid_events_irrelevant (consumer consumer' : list pyval)
    (w : world) :
  Forall countable_event consumer →
  consumer ≡ₚ consumer' →
  ∃ w1 w2, main consumer w = Returned tt w1 ∧
           main consumer' w = Returned tt w2 ∧
           durable_counts w1 = durable_counts w2 ∧
           snapshot_counts w1 = snapshot_counts w2.
Proof.
  intros Hvalid Hperm.
  assert (Hvalid' : Forall countable_event consumer') by by rewrite <- Hperm.
  destruct (main_valid consumer w Hvalid) as (w1 & Hrun1 & Hsync1).
  destruct (main_valid consumer' w Hvalid') as (w2 & Hrun2 & Hsync2).
  exists w1, w2.
  destruct (synced_counts _ _ Hsync1) as [-> ->].
  destruct (synced_counts _ _ Hsync2) as [-> ->].
  assert (tally consumer ∅ = tally consumer' ∅) as ->; [|done].
  apply map_eq. intros k.
  by rewrite !tally_lookup, (occurrences_Permutation k _ _ Hperm).
Qed.

Lemma order_of_valid_events_irrelevant_witness :
  ∃ w1 w2,
    main [event (PStr "python"); event (PStr "rust"); event (PStr "python")]
         prior_run = Returned tt w1 ∧
    main [event (PStr "rust"); event (PStr "python"); event (PStr "python")]
         prior_run = Returned tt w2 ∧
    durable_counts w1 = durable_counts w2 ∧
    snapshot_counts w1 = snapshot_counts w2.
Proof.
  refine (order_of_valid_events_irrelevant
    [event (PStr "python"); event (PStr "rust"); event (PStr "python")]
    [event (PStr "rust"); event (PStr "python"); event (PStr "python")]
    prior_run _ _).
  - repeat apply Forall_cons_2; try apply Forall_nil_2;
      eexists; split; vm_compute; reflexivity.
  - apply Permutation_swap.
Defined.

(** As long as every truthy keyword of the feed is a string, table and
    snapshot hold the same mapping when the run ends, also when it ends
    by an exception (a payload that is not an object). *)
Theorem stores_agree_after_string_keywords (consumer : list pyval) (w : world) :
  Forall string_keyword consumer →
  snapshot_counts (final (main consumer w))
    = durable_counts (final (main consumer w)).
Proof.
  intros Hall. destruct (main_for_each w) as (w1 & Hfresh & ->).
  destruct (for_each_string_keyword consumer ∅ w1 Hall) as (m & Hsync).
  - rewrite Hfresh. split; simpl; auto.
  - by destruct (synced_counts _ _ Hsync) as [-> ->].
Qed.

Lemma stores_agree_after_string_keywords_witness :
  snapshot_counts (final (main [event (PStr "python"); PStr "oops";
                               event (PStr "rust")] prior_run))
    = durable_counts (final (main [event (PStr "python"); PStr "oops";
                                  event (PStr "rust")] prior_run)).
Proof.
  refine (stores_agree_after_string_keywords
            [event (PStr "python"); PStr "oops"; event (PStr "rust")]
            prior_run _).
  repeat apply Forall_cons_2; try apply Forall_nil_2;
    intros fields v Hmessage Hfield _; vm_compute in Hmessage;
    try discriminate Hmessage;
    injection Hmessage as <-; vm_compute in Hfield;
    injection Hfield as <-; eexists; reflexivity.
Defined.

Lemma for_each_drop_skipped consumer w w' :
  files w = files w' →
  outcome (for_each process_message
             (filter (λ m, skipped m = false) consumer) w) =
  outcome (for_each process_message consumer w').
Proof.
  revert w w'. induction consumer as [|message consumer IH];
    intros w w' Hfiles.
  - simpl. by rewrite Hfiles.
  - rewrite filter_cons. cbn [for_each].
    destruct (skipped message) eqn:Hskip.
    + rewrite decide_False by done.
      destruct (skipped_returns message w' Hskip) as (w'' & Hrun & Hsame).
      rewrite (bind_returned _ _ _ _ _ Hrun). apply IH. congruence.
    + rewrite decide_True by done. cbn [for_each]. unfold bind.
      pose proof (log_blind_process_message message w w' Hfiles) as Hstep.
      destruct (process_message message w) as [[] w1|e w1],
               (process_message message w') as [[] w1'|e' w1'];
        simpl in Hstep; simplify_eq; [apply IH; congruence|].
      simpl. congruence.
Qed.

(** Messages that are skipped (objects with a missing or falsy keyword)
    leave no trace in the stores: taking all of them out of a feed, as
    many as there are and wherever they stand, changes neither the files
    the run ends with nor whether and how it raises. *)
Theorem skipped_messages_leave_no_trace (consumer : list pyval) (w : world) :
  outcome (main (filter (λ m, skipped m = false) consumer) w) =
  outcome (main consumer w).
Proof.
  destruct (main_for_each w) as (w1 & _ & Hmain).
  rewrite !Hmain. by apply for_each_drop_skipped.
Qed.

Lemma in_range_printable z :
  - 2 ^ 63 ≤ z < 2 ^ 63 → printable_int z = true.
Proof.
  intros Hz. unfold printable_int. apply bool_decide_eq_true.
  assert (Hlt : 2 ^ 63 < 10 ^ 4300)
    by (apply Z.ltb_lt; vm_compute; reflexivity).
  revert Hz Hlt. generalize (2 ^ 63) (10 ^ 4300). lia.
Qed.

(** What [sqlite3] has bound, [json.dump] can write as a key. *)
Lemma bound_key_writable keyword key :
  bind_parameter keyword = inr key → as_key keyword ≠ inr KeyHugeInt.
Proof.
  destruct keyword as [|b|z|f|s|items|fields]; simpl; try done.
  case_bool_decide as Hz; [|done]. by rewrite (in_range_printable z Hz).
Qed.

Lemma update_keyword_count_returned keyword w w' :
  update_keyword_count keyword w = Returned tt w' →
  ∃ key, bind_parameter keyword = inr key.
Proof.
  run. destruct (default (Database None) (sqlite_file (files w))) as [[t|]];
    simpl; [|done].
  destruct (bind_parameter keyword) as [e|key]; simpl; [done|eauto].
Qed.

Lemma update_json_file_never_leaves_empty keyword w :
  as_key keyword ≠ inr KeyHugeInt →
  json_file (files w) ≠ Some Incomplete →
  json_file (files (final (update_json_file keyword w))) ≠ Some Incomplete.
Proof.
  intros Hkey. destruct w as [[db [[|counts]|]] l]; simpl; [done| |];
    intros _; run; destruct (as_key keyword) as [e|[s|text|]]; simpl; done.
Qed.

Lemma process_message_never_leaves_empty message w :
  json_file (files w) ≠ Some Incomplete →
  json_file (files (final (process_message message w))) ≠ Some Incomplete.
Proof.
  intros Hfile. destruct (process_message_cases message w)
    as [Hsame | (fields & keyword & -> & Hf & Ht & Hfmt & ->)].
  - by rewrite Hsame.
  - rewrite final_bind. set (w0 := World _ _).
    pose proof (update_keyword_count_json keyword w0) as Hjson.
    pose proof (update_keyword_count_returned keyword w0) as Hbound.
    destruct (update_keyword_count keyword w0) as [[] w1|e w1];
      cbn [final] in *.
    + destruct (Hbound w1 eq_refl) as [key Hkey].
      apply update_json_file_never_leaves_empty.
      * by apply (bound_key_writable keyword key).
      * by rewrite Hjson.
    + by rewrite Hjson.
Qed.

(** Whatever the feed, and whether the run returns or raises, the state a
    run ends in never has a snapshot file without a whole document: the
    file is absent or holds a whole document, so the next message can read
    it.  (An int too long for [json.dump] is refused by [sqlite3] before
    the snapshot is touched.) *)
Theorem snapshot_whole_between_messages (consumer : list pyval) (w : world) :
  json_file (files (final (main consumer w))) = None ∨
  ∃ counts, json_file (files (final (main consumer w)))
              = Some (JsonDocument counts).
Proof.
  destruct (main_for_each w) as (w1 & Hfresh & ->).
  assert (Hgoal : json_file (files (final
            (for_each process_message consumer w1))) ≠ Some Incomplete).
  { assert (Hstart : json_file (files w1) ≠ Some Incomplete)
      by by rewrite Hfresh.
    clear Hfresh. revert w1 Hstart.
    induction consumer as [|message consumer IH]; intros w1 Hstart; [done|].
    cbn [for_each]. rewrite final_bind.
    pose proof (process_message_never_leaves_empty message w1 Hstart) as Hstep.
    destruct (process_message message w1) as [[] w2|e w2]; cbn [final] in *;
      [by apply IH|done]. }
  destruct (json_file _) as [[|counts]|]; [done|eauto|auto].
Qed.
